(** * task1.py: a command-line address book, embedded in Rocq

    The development follows the layout of the Python module:

    - [Unicode]: the character classes and case mappings that the built-in
      [str] methods used by the program ([isdigit], [lower], [split],
      [strip]) read from the interpreter's Unicode database;
    - [Py]: the fragment of the Python runtime the program relies on
      (strings, exceptions, insertion-ordered dictionaries, sequence
      unpacking);
    - [Datetime]: [datetime.date], [datetime.strptime] and [strftime] for
      the only format the program uses, ["%d.%m.%Y"];
    - the classes [Phone], [Birthday], [record], [AddressBook], the command
      handlers with the [input_error] decorator, [parse_input] and the
      dispatch loop of [main];
    - the properties of the specification, one theorem per claim. *)

From Stdlib Require Import List NArith ZArith String Ascii Bool Lia.
Import ListNotations.

(* ================================================================== *)
(** * Unicode database (CPython 3.11, Unicode 14.0.0)                   *)
(* ================================================================== *)

Module Unicode.

Open Scope N_scope.

(** A range table lists closed intervals of code points. *)
Definition in_range (c : N) (r : N * N) : bool :=
  (fst r <=? c) && (c <=? snd r).

Definition in_ranges (c : N) (rs : list (N * N)) : bool :=
  existsb (in_range c) rs.

(** White_Space characters together with the four information separators:
    the characters for which [Py_UNICODE_ISSPACE] holds.  [str.split()]
    and [str.strip()] cut on exactly these. *)
Definition whitespace_ranges : list (N * N) :=
  [
   (0x9, 0xD); (0x1C, 0x20); (0x85, 0x85); (0xA0, 0xA0);
   (0x1680, 0x1680); (0x2000, 0x200A); (0x2028, 0x2029); (0x202F, 0x202F);
   (0x205F, 0x205F); (0x3000, 0x3000)
  ]%N.

Definition decimal_ranges : list (N * N) :=
  [
   (0x30, 0x39); (0x660, 0x669); (0x6F0, 0x6F9); (0x7C0, 0x7C9);
   (0x966, 0x96F); (0x9E6, 0x9EF); (0xA66, 0xA6F); (0xAE6, 0xAEF);
   (0xB66, 0xB6F); (0xBE6, 0xBEF); (0xC66, 0xC6F); (0xCE6, 0xCEF);
   (0xD66, 0xD6F); (0xDE6, 0xDEF); (0xE50, 0xE59); (0xED0, 0xED9);
   (0xF20, 0xF29); (0x1040, 0x1049); (0x1090, 0x1099); (0x17E0, 0x17E9);
   (0x1810, 0x1819); (0x1946, 0x194F); (0x19D0, 0x19D9); (0x1A80, 0x1A89);
   (0x1A90, 0x1A99); (0x1B50, 0x1B59); (0x1BB0, 0x1BB9); (0x1C40, 0x1C49);
   (0x1C50, 0x1C59); (0xA620, 0xA629); (0xA8D0, 0xA8D9); (0xA900, 0xA909);
   (0xA9D0, 0xA9D9); (0xA9F0, 0xA9F9); (0xAA50, 0xAA59); (0xABF0, 0xABF9);
   (0xFF10, 0xFF19); (0x104A0, 0x104A9); (0x10D30, 0x10D39); (0x11066, 0x1106F);
   (0x110F0, 0x110F9); (0x11136, 0x1113F); (0x111D0, 0x111D9); (0x112F0, 0x112F9);
   (0x11450, 0x11459); (0x114D0, 0x114D9); (0x11650, 0x11659); (0x116C0, 0x116C9);
   (0x11730, 0x11739); (0x118E0, 0x118E9); (0x11950, 0x11959); (0x11C50, 0x11C59);
   (0x11D50, 0x11D59); (0x11DA0, 0x11DA9); (0x16A60, 0x16A69); (0x16AC0, 0x16AC9);
   (0x16B50, 0x16B59); (0x1D7CE, 0x1D7FF); (0x1E140, 0x1E149); (0x1E2F0, 0x1E2F9);
   (0x1E950, 0x1E959); (0x1FBF0, 0x1FBF9)
  ]%N.

(** Numeric_Type=Digit without Numeric_Type=Decimal: superscripts,
    subscripts, circled and parenthesised digits and the like. *)
Definition other_digit_ranges : list (N * N) :=
  [
   (0xB2, 0xB3); (0xB9, 0xB9); (0x1369, 0x1371); (0x19DA, 0x19DA);
   (0x2070, 0x2070); (0x2074, 0x2079); (0x2080, 0x2089); (0x2460, 0x2468);
   (0x2474, 0x247C); (0x2488, 0x2490); (0x24EA, 0x24EA); (0x24F5, 0x24FD);
   (0x24FF, 0x24FF); (0x2776, 0x277E); (0x2780, 0x2788); (0x278A, 0x2792);
   (0x10A40, 0x10A43); (0x10E60, 0x10E68); (0x11052, 0x1105A); (0x1F100, 0x1F10A)
  ]%N.

(** The derived property Cased (Lowercase, Uppercase or category Lt). *)
Definition cased_ranges : list (N * N) :=
  [
   (0x41, 0x5A); (0x61, 0x7A); (0xAA, 0xAA); (0xB5, 0xB5);
   (0xBA, 0xBA); (0xC0, 0xD6); (0xD8, 0xF6); (0xF8, 0x1BA);
   (0x1BC, 0x1BF); (0x1C4, 0x293); (0x295, 0x2B8); (0x2C0, 0x2C1);
   (0x2E0, 0x2E4); (0x345, 0x345); (0x370, 0x373); (0x376, 0x377);
   (0x37A, 0x37D); (0x37F, 0x37F); (0x386, 0x386); (0x388, 0x38A);
   (0x38C, 0x38C); (0x38E, 0x3A1); (0x3A3, 0x3F5); (0x3F7, 0x481);
   (0x48A, 0x52F); (0x531, 0x556); (0x560, 0x588); (0x10A0, 0x10C5);
   (0x10C7, 0x10C7); (0x10CD, 0x10CD); (0x10D0, 0x10FA); (0x10FD, 0x10FF);
   (0x13A0, 0x13F5); (0x13F8, 0x13FD); (0x1C80, 0x1C88); (0x1C90, 0x1CBA);
   (0x1CBD, 0x1CBF); (0x1D00, 0x1DBF); (0x1E00, 0x1F15); (0x1F18, 0x1F1D);
   (0x1F20, 0x1F45); (0x1F48, 0x1F4D); (0x1F50, 0x1F57); (0x1F59, 0x1F59);
   (0x1F5B, 0x1F5B); (0x1F5D, 0x1F5D); (0x1F5F, 0x1F7D); (0x1F80, 0x1FB4);
   (0x1FB6, 0x1FBC); (0x1FBE, 0x1FBE); (0x1FC2, 0x1FC4); (0x1FC6, 0x1FCC);
   (0x1FD0, 0x1FD3); (0x1FD6, 0x1FDB); (0x1FE0, 0x1FEC); (0x1FF2, 0x1FF4);
   (0x1FF6, 0x1FFC); (0x2071, 0x2071); (0x207F, 0x207F); (0x2090, 0x209C);
   (0x2102, 0x2102); (0x2107, 0x2107); (0x210A, 0x2113); (0x2115, 0x2115);
   (0x2119, 0x211D); (0x2124, 0x2124); (0x2126, 0x2126); (0x2128, 0x2128);
   (0x212A, 0x212D); (0x212F, 0x2134); (0x2139, 0x2139); (0x213C, 0x213F);
   (0x2145, 0x2149); (0x214E, 0x214E); (0x2160, 0x217F); (0x2183, 0x2184);
   (0x24B6, 0x24E9); (0x2C00, 0x2CE4); (0x2CEB, 0x2CEE); (0x2CF2, 0x2CF3);
   (0x2D00, 0x2D25); (0x2D27, 0x2D27); (0x2D2D, 0x2D2D); (0xA640, 0xA66D);
   (0xA680, 0xA69D); (0xA722, 0xA787); (0xA78B, 0xA78E); (0xA790, 0xA7CA);
   (0xA7D0, 0xA7D1); (0xA7D3, 0xA7D3); (0xA7D5, 0xA7D9); (0xA7F5, 0xA7F6);
   (0xA7F8, 0xA7FA); (0xAB30, 0xAB5A); (0xAB5C, 0xAB68); (0xAB70, 0xABBF);
   (0xFB00, 0xFB06); (0xFB13, 0xFB17); (0xFF21, 0xFF3A); (0xFF41, 0xFF5A);
   (0x10400, 0x1044F); (0x104B0, 0x104D3); (0x104D8, 0x104FB); (0x10570, 0x1057A);
   (0x1057C, 0x1058A); (0x1058C, 0x10592); (0x10594, 0x10595); (0x10597, 0x105A1);
   (0x105A3, 0x105B1); (0x105B3, 0x105B9); (0x105BB, 0x105BC); (0x10780, 0x10780);
   (0x10783, 0x10785); (0x10787, 0x107B0); (0x107B2, 0x107BA); (0x10C80, 0x10CB2);
   (0x10CC0, 0x10CF2); (0x118A0, 0x118DF); (0x16E40, 0x16E7F); (0x1D400, 0x1D454);
   (0x1D456, 0x1D49C); (0x1D49E, 0x1D49F); (0x1D4A2, 0x1D4A2); (0x1D4A5, 0x1D4A6);
   (0x1D4A9, 0x1D4AC); (0x1D4AE, 0x1D4B9); (0x1D4BB, 0x1D4BB); (0x1D4BD, 0x1D4C3);
   (0x1D4C5, 0x1D505); (0x1D507, 0x1D50A); (0x1D50D, 0x1D514); (0x1D516, 0x1D51C);
   (0x1D51E, 0x1D539); (0x1D53B, 0x1D53E); (0x1D540, 0x1D544); (0x1D546, 0x1D546);
   (0x1D54A, 0x1D550); (0x1D552, 0x1D6A5); (0x1D6A8, 0x1D6C0); (0x1D6C2, 0x1D6DA);
   (0x1D6DC, 0x1D6FA); (0x1D6FC, 0x1D714); (0x1D716, 0x1D734); (0x1D736, 0x1D74E);
   (0x1D750, 0x1D76E); (0x1D770, 0x1D788); (0x1D78A, 0x1D7A8); (0x1D7AA, 0x1D7C2);
   (0x1D7C4, 0x1D7CB); (0x1DF00, 0x1DF09); (0x1DF0B, 0x1DF1E); (0x1E900, 0x1E943);
   (0x1F130, 0x1F149); (0x1F150, 0x1F169); (0x1F170, 0x1F189)
  ]%N.

(** The derived property Case_Ignorable. *)
Definition case_ignorable_ranges : list (N * N) :=
  [
   (0x27, 0x27); (0x2E, 0x2E); (0x3A, 0x3A); (0x5E, 0x5E);
   (0x60, 0x60); (0xA8, 0xA8); (0xAD, 0xAD); (0xAF, 0xAF);
   (0xB4, 0xB4); (0xB7, 0xB8); (0x2B0, 0x36F); (0x374, 0x375);
   (0x37A, 0x37A); (0x384, 0x385); (0x387, 0x387); (0x483, 0x489);
   (0x559, 0x559); (0x55F, 0x55F); (0x591, 0x5BD); (0x5BF, 0x5BF);
   (0x5C1, 0x5C2); (0x5C4, 0x5C5); (0x5C7, 0x5C7); (0x5F4, 0x5F4);
   (0x600, 0x605); (0x610, 0x61A); (0x61C, 0x61C); (0x640, 0x640);
   (0x64B, 0x65F); (0x670, 0x670); (0x6D6, 0x6DD); (0x6DF, 0x6E8);
   (0x6EA, 0x6ED); (0x70F, 0x70F); (0x711, 0x711); (0x730, 0x74A);
   (0x7A6, 0x7B0); (0x7EB, 0x7F5); (0x7FA, 0x7FA); (0x7FD, 0x7FD);
   (0x816, 0x82D); (0x859, 0x85B); (0x888, 0x888); (0x890, 0x891);
   (0x898, 0x89F); (0x8C9, 0x902); (0x93A, 0x93A); (0x93C, 0x93C);
   (0x941, 0x948); (0x94D, 0x94D); (0x951, 0x957); (0x962, 0x963);
   (0x971, 0x971); (0x981, 0x981); (0x9BC, 0x9BC); (0x9C1, 0x9C4);
   (0x9CD, 0x9CD); (0x9E2, 0x9E3); (0x9FE, 0x9FE); (0xA01, 0xA02);
   (0xA3C, 0xA3C); (0xA41, 0xA42); (0xA47, 0xA48); (0xA4B, 0xA4D);
   (0xA51, 0xA51); (0xA70, 0xA71); (0xA75, 0xA75); (0xA81, 0xA82);
   (0xABC, 0xABC); (0xAC1, 0xAC5); (0xAC7, 0xAC8); (0xACD, 0xACD);
   (0xAE2, 0xAE3); (0xAFA, 0xAFF); (0xB01, 0xB01); (0xB3C, 0xB3C);
   (0xB3F, 0xB3F); (0xB41, 0xB44); (0xB4D, 0xB4D); (0xB55, 0xB56);
   (0xB62, 0xB63); (0xB82, 0xB82); (0xBC0, 0xBC0); (0xBCD, 0xBCD);
   (0xC00, 0xC00); (0xC04, 0xC04); (0xC3C, 0xC3C); (0xC3E, 0xC40);
   (0xC46, 0xC48); (0xC4A, 0xC4D); (0xC55, 0xC56); (0xC62, 0xC63);
   (0xC81, 0xC81); (0xCBC, 0xCBC); (0xCBF, 0xCBF); (0xCC6, 0xCC6);
   (0xCCC, 0xCCD); (0xCE2, 0xCE3); (0xD00, 0xD01); (0xD3B, 0xD3C);
   (0xD41, 0xD44); (0xD4D, 0xD4D); (0xD62, 0xD63); (0xD81, 0xD81);
   (0xDCA, 0xDCA); (0xDD2, 0xDD4); (0xDD6, 0xDD6); (0xE31, 0xE31);
   (0xE34, 0xE3A); (0xE46, 0xE4E); (0xEB1, 0xEB1); (0xEB4, 0xEBC);
   (0xEC6, 0xEC6); (0xEC8, 0xECD); (0xF18, 0xF19); (0xF35, 0xF35);
   (0xF37, 0xF37); (0xF39, 0xF39); (0xF71, 0xF7E); (0xF80, 0xF84);
   (0xF86, 0xF87); (0xF8D, 0xF97); (0xF99, 0xFBC); (0xFC6, 0xFC6);
   (0x102D, 0x1030); (0x1032, 0x1037); (0x1039, 0x103A); (0x103D, 0x103E);
   (0x1058, 0x1059); (0x105E, 0x1060); (0x1071, 0x1074); (0x1082, 0x1082);
   (0x1085, 0x1086); (0x108D, 0x108D); (0x109D, 0x109D); (0x10FC, 0x10FC);
   (0x135D, 0x135F); (0x1712, 0x1714); (0x1732, 0x1733); (0x1752, 0x1753);
   (0x1772, 0x1773); (0x17B4, 0x17B5); (0x17B7, 0x17BD); (0x17C6, 0x17C6);
   (0x17C9, 0x17D3); (0x17D7, 0x17D7); (0x17DD, 0x17DD); (0x180B, 0x180F);
   (0x1843, 0x1843); (0x1885, 0x1886); (0x18A9, 0x18A9); (0x1920, 0x1922);
   (0x1927, 0x1928); (0x1932, 0x1932); (0x1939, 0x193B); (0x1A17, 0x1A18);
   (0x1A1B, 0x1A1B); (0x1A56, 0x1A56); (0x1A58, 0x1A5E); (0x1A60, 0x1A60);
   (0x1A62, 0x1A62); (0x1A65, 0x1A6C); (0x1A73, 0x1A7C); (0x1A7F, 0x1A7F);
   (0x1AA7, 0x1AA7); (0x1AB0, 0x1ACE); (0x1B00, 0x1B03); (0x1B34, 0x1B34);
   (0x1B36, 0x1B3A); (0x1B3C, 0x1B3C); (0x1B42, 0x1B42); (0x1B6B, 0x1B73);
   (0x1B80, 0x1B81); (0x1BA2, 0x1BA5); (0x1BA8, 0x1BA9); (0x1BAB, 0x1BAD);
   (0x1BE6, 0x1BE6); (0x1BE8, 0x1BE9); (0x1BED, 0x1BED); (0x1BEF, 0x1BF1);
   (0x1C2C, 0x1C33); (0x1C36, 0x1C37); (0x1C78, 0x1C7D); (0x1CD0, 0x1CD2);
   (0x1CD4, 0x1CE0); (0x1CE2, 0x1CE8); (0x1CED, 0x1CED); (0x1CF4, 0x1CF4);
   (0x1CF8, 0x1CF9); (0x1D2C, 0x1D6A); (0x1D78, 0x1D78); (0x1D9B, 0x1DFF);
   (0x1FBD, 0x1FBD); (0x1FBF, 0x1FC1); (0x1FCD, 0x1FCF); (0x1FDD, 0x1FDF);
   (0x1FED, 0x1FEF); (0x1FFD, 0x1FFE); (0x200B, 0x200F); (0x2018, 0x2019);
   (0x2024, 0x2024); (0x2027, 0x2027); (0x202A, 0x202E); (0x2060, 0x2064);
   (0x2066, 0x206F); (0x2071, 0x2071); (0x207F, 0x207F); (0x2090, 0x209C);
   (0x20D0, 0x20F0); (0x2C7C, 0x2C7D); (0x2CEF, 0x2CF1); (0x2D6F, 0x2D6F);
   (0x2D7F, 0x2D7F); (0x2DE0, 0x2DFF); (0x2E2F, 0x2E2F); (0x3005, 0x3005);
   (0x302A, 0x302D); (0x3031, 0x3035); (0x303B, 0x303B); (0x3099, 0x309E);
   (0x30FC, 0x30FE); (0xA015, 0xA015); (0xA4F8, 0xA4FD); (0xA60C, 0xA60C);
   (0xA66F, 0xA672); (0xA674, 0xA67D); (0xA67F, 0xA67F); (0xA69C, 0xA69F);
   (0xA6F0, 0xA6F1); (0xA700, 0xA721); (0xA770, 0xA770); (0xA788, 0xA78A);
   (0xA7F2, 0xA7F4); (0xA7F8, 0xA7F9); (0xA802, 0xA802); (0xA806, 0xA806);
   (0xA80B, 0xA80B); (0xA825, 0xA826); (0xA82C, 0xA82C); (0xA8C4, 0xA8C5);
   (0xA8E0, 0xA8F1); (0xA8FF, 0xA8FF); (0xA926, 0xA92D); (0xA947, 0xA951);
   (0xA980, 0xA982); (0xA9B3, 0xA9B3); (0xA9B6, 0xA9B9); (0xA9BC, 0xA9BD);
   (0xA9CF, 0xA9CF); (0xA9E5, 0xA9E6); (0xAA29, 0xAA2E); (0xAA31, 0xAA32);
   (0xAA35, 0xAA36); (0xAA43, 0xAA43); (0xAA4C, 0xAA4C); (0xAA70, 0xAA70);
   (0xAA7C, 0xAA7C); (0xAAB0, 0xAAB0); (0xAAB2, 0xAAB4); (0xAAB7, 0xAAB8);
   (0xAABE, 0xAABF); (0xAAC1, 0xAAC1); (0xAADD, 0xAADD); (0xAAEC, 0xAAED);
   (0xAAF3, 0xAAF4); (0xAAF6, 0xAAF6); (0xAB5B, 0xAB5F); (0xAB69, 0xAB6B);
   (0xABE5, 0xABE5); (0xABE8, 0xABE8); (0xABED, 0xABED); (0xFB1E, 0xFB1E);
   (0xFBB2, 0xFBC2); (0xFE00, 0xFE0F); (0xFE13, 0xFE13); (0xFE20, 0xFE2F);
   (0xFE52, 0xFE52); (0xFE55, 0xFE55); (0xFEFF, 0xFEFF); (0xFF07, 0xFF07);
   (0xFF0E, 0xFF0E); (0xFF1A, 0xFF1A); (0xFF3E, 0xFF3E); (0xFF40, 0xFF40);
   (0xFF70, 0xFF70); (0xFF9E, 0xFF9F); (0xFFE3, 0xFFE3); (0xFFF9, 0xFFFB);
   (0x101FD, 0x101FD); (0x102E0, 0x102E0); (0x10376, 0x1037A); (0x10780, 0x10785);
   (0x10787, 0x107B0); (0x107B2, 0x107BA); (0x10A01, 0x10A03); (0x10A05, 0x10A06);
   (0x10A0C, 0x10A0F); (0x10A38, 0x10A3A); (0x10A3F, 0x10A3F); (0x10AE5, 0x10AE6);
   (0x10D24, 0x10D27); (0x10EAB, 0x10EAC); (0x10F46, 0x10F50); (0x10F82, 0x10F85);
   (0x11001, 0x11001); (0x11038, 0x11046); (0x11070, 0x11070); (0x11073, 0x11074);
   (0x1107F, 0x11081); (0x110B3, 0x110B6); (0x110B9, 0x110BA); (0x110BD, 0x110BD);
   (0x110C2, 0x110C2); (0x110CD, 0x110CD); (0x11100, 0x11102); (0x11127, 0x1112B);
   (0x1112D, 0x11134); (0x11173, 0x11173); (0x11180, 0x11181); (0x111B6, 0x111BE);
   (0x111C9, 0x111CC); (0x111CF, 0x111CF); (0x1122F, 0x11231); (0x11234, 0x11234);
   (0x11236, 0x11237); (0x1123E, 0x1123E); (0x112DF, 0x112DF); (0x112E3, 0x112EA);
   (0x11300, 0x11301); (0x1133B, 0x1133C); (0x11340, 0x11340); (0x11366, 0x1136C);
   (0x11370, 0x11374); (0x11438, 0x1143F); (0x11442, 0x11444); (0x11446, 0x11446);
   (0x1145E, 0x1145E); (0x114B3, 0x114B8); (0x114BA, 0x114BA); (0x114BF, 0x114C0);
   (0x114C2, 0x114C3); (0x115B2, 0x115B5); (0x115BC, 0x115BD); (0x115BF, 0x115C0);
   (0x115DC, 0x115DD); (0x11633, 0x1163A); (0x1163D, 0x1163D); (0x1163F, 0x11640);
   (0x116AB, 0x116AB); (0x116AD, 0x116AD); (0x116B0, 0x116B5); (0x116B7, 0x116B7);
   (0x1171D, 0x1171F); (0x11722, 0x11725); (0x11727, 0x1172B); (0x1182F, 0x11837);
   (0x11839, 0x1183A); (0x1193B, 0x1193C); (0x1193E, 0x1193E); (0x11943, 0x11943);
   (0x119D4, 0x119D7); (0x119DA, 0x119DB); (0x119E0, 0x119E0); (0x11A01, 0x11A0A);
   (0x11A33, 0x11A38); (0x11A3B, 0x11A3E); (0x11A47, 0x11A47); (0x11A51, 0x11A56);
   (0x11A59, 0x11A5B); (0x11A8A, 0x11A96); (0x11A98, 0x11A99); (0x11C30, 0x11C36);
   (0x11C38, 0x11C3D); (0x11C3F, 0x11C3F); (0x11C92, 0x11CA7); (0x11CAA, 0x11CB0);
   (0x11CB2, 0x11CB3); (0x11CB5, 0x11CB6); (0x11D31, 0x11D36); (0x11D3A, 0x11D3A);
   (0x11D3C, 0x11D3D); (0x11D3F, 0x11D45); (0x11D47, 0x11D47); (0x11D90, 0x11D91);
   (0x11D95, 0x11D95); (0x11D97, 0x11D97); (0x11EF3, 0x11EF4); (0x13430, 0x13438);
   (0x16AF0, 0x16AF4); (0x16B30, 0x16B36); (0x16B40, 0x16B43); (0x16F4F, 0x16F4F);
   (0x16F8F, 0x16F9F); (0x16FE0, 0x16FE1); (0x16FE3, 0x16FE4); (0x1AFF0, 0x1AFF3);
   (0x1AFF5, 0x1AFFB); (0x1AFFD, 0x1AFFE); (0x1BC9D, 0x1BC9E); (0x1BCA0, 0x1BCA3);
   (0x1CF00, 0x1CF2D); (0x1CF30, 0x1CF46); (0x1D167, 0x1D169); (0x1D173, 0x1D182);
   (0x1D185, 0x1D18B); (0x1D1AA, 0x1D1AD); (0x1D242, 0x1D244); (0x1DA00, 0x1DA36);
   (0x1DA3B, 0x1DA6C); (0x1DA75, 0x1DA75); (0x1DA84, 0x1DA84); (0x1DA9B, 0x1DA9F);
   (0x1DAA1, 0x1DAAF); (0x1E000, 0x1E006); (0x1E008, 0x1E018); (0x1E01B, 0x1E021);
   (0x1E023, 0x1E024); (0x1E026, 0x1E02A); (0x1E130, 0x1E13D); (0x1E2AE, 0x1E2AE);
   (0x1E2EC, 0x1E2EF); (0x1E8D0, 0x1E8D6); (0x1E944, 0x1E94B); (0x1F3FB, 0x1F3FF);
   (0xE0001, 0xE0001); (0xE0020, 0xE007F); (0xE0100, 0xE01EF)
  ]%N.

(** Simple lower-case mappings. *)
Definition lower_runs : list (N * N * N * N) :=
  [
   (0x41, 0x5A, 1, 0x61); (0xC0, 0xD6, 1, 0xE0); (0xD8, 0xDE, 1, 0xF8);
   (0x100, 0x12E, 2, 0x101); (0x132, 0x136, 2, 0x133); (0x139, 0x147, 2, 0x13A);
   (0x14A, 0x176, 2, 0x14B); (0x178, 0x178, 1, 0xFF); (0x179, 0x17D, 2, 0x17A);
   (0x181, 0x181, 1, 0x253); (0x182, 0x184, 2, 0x183); (0x186, 0x186, 1, 0x254);
   (0x187, 0x187, 1, 0x188); (0x189, 0x18A, 1, 0x256); (0x18B, 0x18B, 1, 0x18C);
   (0x18E, 0x18E, 1, 0x1DD); (0x18F, 0x18F, 1, 0x259); (0x190, 0x190, 1, 0x25B);
   (0x191, 0x191, 1, 0x192); (0x193, 0x193, 1, 0x260); (0x194, 0x194, 1, 0x263);
   (0x196, 0x196, 1, 0x269); (0x197, 0x197, 1, 0x268); (0x198, 0x198, 1, 0x199);
   (0x19C, 0x19C, 1, 0x26F); (0x19D, 0x19D, 1, 0x272); (0x19F, 0x19F, 1, 0x275);
   (0x1A0, 0x1A4, 2, 0x1A1); (0x1A6, 0x1A6, 1, 0x280); (0x1A7, 0x1A7, 1, 0x1A8);
   (0x1A9, 0x1A9, 1, 0x283); (0x1AC, 0x1AC, 1, 0x1AD); (0x1AE, 0x1AE, 1, 0x288);
   (0x1AF, 0x1AF, 1, 0x1B0); (0x1B1, 0x1B2, 1, 0x28A); (0x1B3, 0x1B5, 2, 0x1B4);
   (0x1B7, 0x1B7, 1, 0x292); (0x1B8, 0x1B8, 1, 0x1B9); (0x1BC, 0x1BC, 1, 0x1BD);
   (0x1C4, 0x1C4, 1, 0x1C6); (0x1C5, 0x1C5, 1, 0x1C6); (0x1C7, 0x1C7, 1, 0x1C9);
   (0x1C8, 0x1C8, 1, 0x1C9); (0x1CA, 0x1CA, 1, 0x1CC); (0x1CB, 0x1DB, 2, 0x1CC);
   (0x1DE, 0x1EE, 2, 0x1DF); (0x1F1, 0x1F1, 1, 0x1F3); (0x1F2, 0x1F4, 2, 0x1F3);
   (0x1F6, 0x1F6, 1, 0x195); (0x1F7, 0x1F7, 1, 0x1BF); (0x1F8, 0x21E, 2, 0x1F9);
   (0x220, 0x220, 1, 0x19E); (0x222, 0x232, 2, 0x223); (0x23A, 0x23A, 1, 0x2C65);
   (0x23B, 0x23B, 1, 0x23C); (0x23D, 0x23D, 1, 0x19A); (0x23E, 0x23E, 1, 0x2C66);
   (0x241, 0x241, 1, 0x242); (0x243, 0x243, 1, 0x180); (0x244, 0x244, 1, 0x289);
   (0x245, 0x245, 1, 0x28C); (0x246, 0x24E, 2, 0x247); (0x370, 0x372, 2, 0x371);
   (0x376, 0x376, 1, 0x377); (0x37F, 0x37F, 1, 0x3F3); (0x386, 0x386, 1, 0x3AC);
   (0x388, 0x38A, 1, 0x3AD); (0x38C, 0x38C, 1, 0x3CC); (0x38E, 0x38F, 1, 0x3CD);
   (0x391, 0x3A1, 1, 0x3B1); (0x3A3, 0x3AB, 1, 0x3C3); (0x3CF, 0x3CF, 1, 0x3D7);
   (0x3D8, 0x3EE, 2, 0x3D9); (0x3F4, 0x3F4, 1, 0x3B8); (0x3F7, 0x3F7, 1, 0x3F8);
   (0x3F9, 0x3F9, 1, 0x3F2); (0x3FA, 0x3FA, 1, 0x3FB); (0x3FD, 0x3FF, 1, 0x37B);
   (0x400, 0x40F, 1, 0x450); (0x410, 0x42F, 1, 0x430); (0x460, 0x480, 2, 0x461);
   (0x48A, 0x4BE, 2, 0x48B); (0x4C0, 0x4C0, 1, 0x4CF); (0x4C1, 0x4CD, 2, 0x4C2);
   (0x4D0, 0x52E, 2, 0x4D1); (0x531, 0x556, 1, 0x561); (0x10A0, 0x10C5, 1, 0x2D00);
   (0x10C7, 0x10C7, 1, 0x2D27); (0x10CD, 0x10CD, 1, 0x2D2D); (0x13A0, 0x13EF, 1, 0xAB70);
   (0x13F0, 0x13F5, 1, 0x13F8); (0x1C90, 0x1CBA, 1, 0x10D0); (0x1CBD, 0x1CBF, 1, 0x10FD);
   (0x1E00, 0x1E94, 2, 0x1E01); (0x1E9E, 0x1E9E, 1, 0xDF); (0x1EA0, 0x1EFE, 2, 0x1EA1);
   (0x1F08, 0x1F0F, 1, 0x1F00); (0x1F18, 0x1F1D, 1, 0x1F10); (0x1F28, 0x1F2F, 1, 0x1F20);
   (0x1F38, 0x1F3F, 1, 0x1F30); (0x1F48, 0x1F4D, 1, 0x1F40); (0x1F59, 0x1F5F, 2, 0x1F51);
   (0x1F68, 0x1F6F, 1, 0x1F60); (0x1F88, 0x1F8F, 1, 0x1F80); (0x1F98, 0x1F9F, 1, 0x1F90);
   (0x1FA8, 0x1FAF, 1, 0x1FA0); (0x1FB8, 0x1FB9, 1, 0x1FB0); (0x1FBA, 0x1FBB, 1, 0x1F70);
   (0x1FBC, 0x1FBC, 1, 0x1FB3); (0x1FC8, 0x1FCB, 1, 0x1F72); (0x1FCC, 0x1FCC, 1, 0x1FC3);
   (0x1FD8, 0x1FD9, 1, 0x1FD0); (0x1FDA, 0x1FDB, 1, 0x1F76); (0x1FE8, 0x1FE9, 1, 0x1FE0);
   (0x1FEA, 0x1FEB, 1, 0x1F7A); (0x1FEC, 0x1FEC, 1, 0x1FE5); (0x1FF8, 0x1FF9, 1, 0x1F78);
   (0x1FFA, 0x1FFB, 1, 0x1F7C); (0x1FFC, 0x1FFC, 1, 0x1FF3); (0x2126, 0x2126, 1, 0x3C9);
   (0x212A, 0x212A, 1, 0x6B); (0x212B, 0x212B, 1, 0xE5); (0x2132, 0x2132, 1, 0x214E);
   (0x2160, 0x216F, 1, 0x2170); (0x2183, 0x2183, 1, 0x2184); (0x24B6, 0x24CF, 1, 0x24D0);
   (0x2C00, 0x2C2F, 1, 0x2C30); (0x2C60, 0x2C60, 1, 0x2C61); (0x2C62, 0x2C62, 1, 0x26B);
   (0x2C63, 0x2C63, 1, 0x1D7D); (0x2C64, 0x2C64, 1, 0x27D); (0x2C67, 0x2C6B, 2, 0x2C68);
   (0x2C6D, 0x2C6D, 1, 0x251); (0x2C6E, 0x2C6E, 1, 0x271); (0x2C6F, 0x2C6F, 1, 0x250);
   (0x2C70, 0x2C70, 1, 0x252); (0x2C72, 0x2C72, 1, 0x2C73); (0x2C75, 0x2C75, 1, 0x2C76);
   (0x2C7E, 0x2C7F, 1, 0x23F); (0x2C80, 0x2CE2, 2, 0x2C81); (0x2CEB, 0x2CED, 2, 0x2CEC);
   (0x2CF2, 0x2CF2, 1, 0x2CF3); (0xA640, 0xA66C, 2, 0xA641); (0xA680, 0xA69A, 2, 0xA681);
   (0xA722, 0xA72E, 2, 0xA723); (0xA732, 0xA76E, 2, 0xA733); (0xA779, 0xA77B, 2, 0xA77A);
   (0xA77D, 0xA77D, 1, 0x1D79); (0xA77E, 0xA786, 2, 0xA77F); (0xA78B, 0xA78B, 1, 0xA78C);
   (0xA78D, 0xA78D, 1, 0x265); (0xA790, 0xA792, 2, 0xA791); (0xA796, 0xA7A8, 2, 0xA797);
   (0xA7AA, 0xA7AA, 1, 0x266); (0xA7AB, 0xA7AB, 1, 0x25C); (0xA7AC, 0xA7AC, 1, 0x261);
   (0xA7AD, 0xA7AD, 1, 0x26C); (0xA7AE, 0xA7AE, 1, 0x26A); (0xA7B0, 0xA7B0, 1, 0x29E);
   (0xA7B1, 0xA7B1, 1, 0x287); (0xA7B2, 0xA7B2, 1, 0x29D); (0xA7B3, 0xA7B3, 1, 0xAB53);
   (0xA7B4, 0xA7C2, 2, 0xA7B5); (0xA7C4, 0xA7C4, 1, 0xA794); (0xA7C5, 0xA7C5, 1, 0x282);
   (0xA7C6, 0xA7C6, 1, 0x1D8E); (0xA7C7, 0xA7C9, 2, 0xA7C8); (0xA7D0, 0xA7D0, 1, 0xA7D1);
   (0xA7D6, 0xA7D8, 2, 0xA7D7); (0xA7F5, 0xA7F5, 1, 0xA7F6); (0xFF21, 0xFF3A, 1, 0xFF41);
   (0x10400, 0x10427, 1, 0x10428); (0x104B0, 0x104D3, 1, 0x104D8); (0x10570, 0x1057A, 1, 0x10597);
   (0x1057C, 0x1058A, 1, 0x105A3); (0x1058C, 0x10592, 1, 0x105B3); (0x10594, 0x10595, 1, 0x105BB);
   (0x10C80, 0x10CB2, 1, 0x10CC0); (0x118A0, 0x118BF, 1, 0x118C0); (0x16E40, 0x16E5F, 1, 0x16E60);
   (0x1E900, 0x1E921, 1, 0x1E922)
  ]%N.

Definition isspace (c : N) : bool := in_ranges c whitespace_ranges.

(** Numeric_Type=Decimal (general category Nd): what [str.isdecimal] and
    the regular-expression class [\d] accept.  Every block of the table
    is a whole number of runs [0..9], so the value of a decimal digit is
    its offset in the block modulo ten. *)
Definition isdecimal (c : N) : bool := in_ranges c decimal_ranges.

Definition decimal_value (c : N) : option N :=
  match find (in_range c) decimal_ranges with
  | Some (lo, _) => Some ((c - lo) mod 10)
  | None => None
  end.

(** [str.isdigit]: Numeric_Type=Decimal or Numeric_Type=Digit. *)
Definition isdigit (c : N) : bool :=
  isdecimal c || in_ranges c other_digit_ranges.

Definition iscased (c : N) : bool := in_ranges c cased_ranges.
Definition iscaseignorable (c : N) : bool := in_ranges c case_ignorable_ranges.

(** Simple lower-case mapping.  A run [(lo, hi, step, target)] maps
    [lo + k * step] (up to [hi]) to [target + k * step]. *)
Definition in_run (c : N) (r : N * N * N * N) : bool :=
  let '(lo, hi, step, _) := r in
  (lo <=? c) && (c <=? hi) && ((c - lo) mod step =? 0).

Definition tolower (c : N) : N :=
  match find (in_run c) lower_runs with
  | Some (lo, _, _, target) => target + (c - lo)
  | None => c
  end.

(** [_PyUnicode_ToLowerFull]: the only character whose lower case is
    longer than one code point is U+0130 (capital I with dot above). *)
Definition tolower_full (c : N) : list N :=
  if c =? 0x130 then [0x69; 0x307] else [tolower c].

End Unicode.

(* ================================================================== *)
(** * The Python runtime fragment used by the program                   *)
(* ================================================================== *)

Module Py.

(** A [str] is a sequence of Unicode code points. *)
Definition pystr := list N.

(** String literals of the source are written as Rocq strings and decoded
    from UTF-8, the encoding of the source file. *)
Fixpoint utf8_decode (bs : list N) : pystr :=
  match bs with
  | [] => []
  | b0 :: r0 =>
    if (b0 <? 0x80)%N then b0 :: utf8_decode r0
    else
      match r0 with
      | [] => []
      | b1 :: r1 =>
        if (b0 <? 0xE0)%N
        then ((b0 - 0xC0) * 64 + (b1 - 0x80))%N :: utf8_decode r1
        else
          match r1 with
          | [] => []
          | b2 :: r2 =>
            if (b0 <? 0xF0)%N
            then ((b0 - 0xE0) * 4096 + (b1 - 0x80) * 64 + (b2 - 0x80))%N
                   :: utf8_decode r2
            else
              match r2 with
              | [] => []
              | b3 :: r3 =>
                ((b0 - 0xF0) * 262144 + (b1 - 0x80) * 4096
                 + (b2 - 0x80) * 64 + (b3 - 0x80))%N :: utf8_decode r3
              end
          end
      end
  end.

Definition u (lit : string) : pystr :=
  utf8_decode (map N_of_ascii (list_ascii_of_string lit)).

Definition str_eqb (a b : pystr) : bool :=
  if list_eq_dec N.eq_dec a b then true else false.

(** Truth value of a string: non-empty. *)
Definition truthy (s : pystr) : bool :=
  match s with [] => false | _ :: _ => true end.

(** ** Exceptions and results *)

Inductive exn : Type :=
| ValueError (msg : pystr)
| IndexError
| KeyError
| TypeError
| AttributeError (msg : pystr).

Inductive result (A : Type) : Type :=
| Ok (a : A)
| Raise (e : exn).
Arguments Ok {A} a.
Arguments Raise {A} e.

Definition is_ok {A} (r : result A) : bool :=
  match r with Ok _ => true | Raise _ => false end.

(** ** [str.isdigit], [str.lower], [str.strip], [str.split], [str.join] *)

(** [str.isdigit()]: every character is a digit and there is at least
    one character. *)
Definition isdigit (s : pystr) : bool :=
  truthy s && forallb Unicode.isdigit s.

Fixpoint skip_ignorable (s : pystr) : pystr :=
  match s with
  | c :: r => if Unicode.iscaseignorable c then skip_ignorable r else s
  | [] => []
  end.

(** [handle_capital_sigma]: U+03A3 is in final position when a cased
    letter precedes it and no cased letter follows it, case-ignorable
    characters being skipped on both sides.  [before] holds the
    characters to the left of the sigma, nearest first. *)
Definition final_sigma (before after : pystr) : bool :=
  match skip_ignorable before with
  | c :: _ =>
    Unicode.iscased c &&
    match skip_ignorable after with
    | [] => true
    | c' :: _ => negb (Unicode.iscased c')
    end
  | [] => false
  end.

Fixpoint lower_from (before s : pystr) : pystr :=
  match s with
  | [] => []
  | c :: r =>
    (if (c =? 0x3A3)%N
     then [if final_sigma before r then 0x3C2%N else 0x3C3%N]
     else Unicode.tolower_full c)
    ++ lower_from (c :: before) r
  end.

Definition lower (s : pystr) : pystr := lower_from [] s.

Fixpoint lstrip (s : pystr) : pystr :=
  match s with
  | c :: r => if Unicode.isspace c then lstrip r else s
  | [] => []
  end.

Definition strip (s : pystr) : pystr := rev (lstrip (rev (lstrip s))).

(** [s.split()] without a separator: maximal runs of non-space
    characters.  [cur] is the token being read, last character first. *)
Fixpoint split_from (cur s : pystr) : list pystr :=
  match s with
  | [] => match cur with [] => [] | _ => [rev cur] end
  | c :: r =>
    if Unicode.isspace c
    then match cur with
         | [] => split_from [] r
         | _ => rev cur :: split_from [] r
         end
    else split_from (c :: cur) r
  end.

Definition split (s : pystr) : list pystr := split_from [] s.

Fixpoint join (sep : pystr) (parts : list pystr) : pystr :=
  match parts with
  | [] => []
  | [p] => p
  | p :: rest => p ++ sep ++ join sep rest
  end.

(** ** [str(int)] and [int(str)] *)

Fixpoint uint_digits (d : Decimal.uint) : pystr :=
  match d with
  | Decimal.Nil => []
  | Decimal.D0 r => 48%N :: uint_digits r
  | Decimal.D1 r => 49%N :: uint_digits r
  | Decimal.D2 r => 50%N :: uint_digits r
  | Decimal.D3 r => 51%N :: uint_digits r
  | Decimal.D4 r => 52%N :: uint_digits r
  | Decimal.D5 r => 53%N :: uint_digits r
  | Decimal.D6 r => 54%N :: uint_digits r
  | Decimal.D7 r => 55%N :: uint_digits r
  | Decimal.D8 r => 56%N :: uint_digits r
  | Decimal.D9 r => 57%N :: uint_digits r
  end.

Definition str_of_nat (n : nat) : pystr := uint_digits (Nat.to_uint n).

Definition str_of_int (z : Z) : pystr :=
  match z with
  | Zneg p => 45%N :: uint_digits (Pos.to_uint p)
  | _ => uint_digits (N.to_uint (Z.to_N z))
  end.

(** [s.zfill(width)] for an unsigned numeral. *)
Definition zfill (width : nat) (s : pystr) : pystr :=
  repeat 48%N (width - List.length s) ++ s.

(** [int(s)] for the numerals that [strptime] captures: surrounding
    white space is dropped and the decimal digits of any script are
    read in base ten. *)
Fixpoint digits_value (acc : N) (s : pystr) : option N :=
  match s with
  | [] => Some acc
  | c :: r =>
    match Unicode.decimal_value c with
    | Some v => digits_value (acc * 10 + v)%N r
    | None => None
    end
  end.

Definition int (s : pystr) : option Z :=
  match strip s with
  | [] => None
  | t => option_map Z.of_N (digits_value 0%N t)
  end.

(** ** Sequence unpacking with a starred tail

    [a, b, *_ = args] raises
    [ValueError("not enough values to unpack (expected at least 2, got n)")]
    when [args] is too short. *)
Definition unpack_message (expected got : nat) : pystr :=
  u "not enough values to unpack (expected at least "
  ++ str_of_nat expected ++ u ", got " ++ str_of_nat got ++ u ")".

Definition unpack_error (expected got : nat) : exn :=
  ValueError (unpack_message expected got).

(** ** Dictionaries

    A [dict] keeps its keys in insertion order; assigning to a key that
    is present replaces the value in place. *)
Section Dict.
Variable V : Type.

Definition dict := list (pystr * V).

Fixpoint dict_get (k : pystr) (d : dict) : option V :=
  match d with
  | [] => None
  | (k', v) :: rest => if str_eqb k' k then Some v else dict_get k rest
  end.

Fixpoint dict_set (k : pystr) (v : V) (d : dict) : dict :=
  match d with
  | [] => [(k, v)]
  | (k', v') :: rest =>
    if str_eqb k' k then (k', v) :: rest else (k', v') :: dict_set k v rest
  end.

Fixpoint dict_del (k : pystr) (d : dict) : dict :=
  match d with
  | [] => []
  | (k', v') :: rest =>
    if str_eqb k' k then rest else (k', v') :: dict_del k rest
  end.

Definition dict_contains (k : pystr) (d : dict) : bool :=
  match dict_get k d with Some _ => true | None => false end.

Definition dict_values (d : dict) : list V := map snd d.
End Dict.

Arguments dict_get {V} k d.
Arguments dict_set {V} k v d.
Arguments dict_del {V} k d.
Arguments dict_contains {V} k d.
Arguments dict_values {V} d.

End Py.

(* ================================================================== *)
(** * [datetime]: dates, ["%d.%m.%Y"] parsing and formatting            *)
(* ================================================================== *)

Module Datetime.
Import Py.

Open Scope Z_scope.

Record date : Type := mkdate { year : Z; month : Z; day : Z }.

Definition MINYEAR : Z := 1.
Definition MAXYEAR : Z := 9999.

Definition is_leap (y : Z) : bool :=
  (y mod 4 =? 0) && (negb (y mod 100 =? 0) || (y mod 400 =? 0)).

Definition days_in_month (y m : Z) : Z :=
  match m with
  | 1 | 3 | 5 | 7 | 8 | 10 | 12 => 31
  | 4 | 6 | 9 | 11 => 30
  | 2 => if is_leap y then 29 else 28
  | _ => 0
  end.

(** Days in the year before the first day of month [m]. *)
Definition days_before_month (y m : Z) : Z :=
  match m with
  | 1 => 0 | 2 => 31 | 3 => 59 | 4 => 90 | 5 => 120 | 6 => 151
  | 7 => 181 | 8 => 212 | 9 => 243 | 10 => 273 | 11 => 304 | 12 => 334
  | _ => 0
  end + (if (2 <? m) && is_leap y then 1 else 0).

(** Days before January 1st of year [y]. *)
Definition days_before_year (y : Z) : Z :=
  let p := y - 1 in
  p * 365 + p / 4 - p / 100 + p / 400.

Definition ymd_to_ord (y m d : Z) : Z :=
  days_before_year y + days_before_month y m + d.

Definition toordinal (d : date) : Z := ymd_to_ord (year d) (month d) (day d).

(** A triple is a date of the proleptic Gregorian calendar between the
    years 1 and 9999. *)
Definition valid_ymd (y m d : Z) : bool :=
  (MINYEAR <=? y) && (y <=? MAXYEAR) && (1 <=? m) && (m <=? 12)
  && (1 <=? d) && (d <=? days_in_month y m).

Definition valid (d : date) : bool := valid_ymd (year d) (month d) (day d).

(** [date(y, m, d)]: the argument checks of the constructor, in its
    order and with its messages. *)
Definition date_new (y m d : Z) : result date :=
  if negb ((MINYEAR <=? y) && (y <=? MAXYEAR))
  then Raise (ValueError (u "year " ++ str_of_int y ++ u " is out of range"))
  else if negb ((1 <=? m) && (m <=? 12))
  then Raise (ValueError (u "month must be in 1..12"))
  else if negb ((1 <=? d) && (d <=? days_in_month y m))
  then Raise (ValueError (u "day is out of range for month"))
  else Ok (mkdate y m d).

(** [d.replace(year=y)]. *)
Definition replace_year (d : date) (y : Z) : result date :=
  date_new y (month d) (day d).

(** [a < b]: dates are ordered by (year, month, day). *)
Definition date_ltb (a b : date) : bool :=
  (year a <? year b)
  || ((year a =? year b)
      && ((month a <? month b)
          || ((month a =? month b) && (day a <? day b)))).

(** [(a - b).days]. *)
Definition sub_days (a b : date) : Z := toordinal a - toordinal b.

(** ** [datetime.strptime(value, "%d.%m.%Y").date()]

    [_strptime] turns the format into the regular expression
<<
    (?P<d>3[0-1]|[1-2]\d|0[1-9]|[1-9]| [1-9])\.
    (?P<m>1[0-2]|0[1-9]|[1-9])\.(?P<Y>\d\d\d\d)
>>
    matches it at the start of the input, rejects input left over after
    the match, converts the three groups with [int] and builds the date.
    Alternatives are tried from left to right and an alternative is
    abandoned when the rest of the pattern fails after it, so every
    matcher takes the rest of the pattern as a continuation. *)
Section Regex.
Variable A : Type.

Definition orelse (x y : option A) : option A :=
  match x with Some _ => x | None => y end.

(** One character of the class [p]. *)
Definition cls (p : N -> bool) (k : N -> pystr -> option A)
           (s : pystr) : option A :=
  match s with
  | c :: r => if p c then k c r else None
  | [] => None
  end.

Definition chr_is (lit : N) (c : N) : bool := (c =? lit)%N.
Definition chr_in (lo hi : N) (c : N) : bool := ((lo <=? c) && (c <=? hi))%N.

(** The code points of ["0"], ["1"], ["2"], ["3"], ["9"], [" "], ["."]. *)
Definition c0 : N := 48.
Definition c1 : N := 49.
Definition c2 : N := 50.
Definition c3 : N := 51.
Definition c9 : N := 57.
Definition c_space : N := 32.
Definition c_dot : N := 46.

Definition two (p q : N -> bool) (k : pystr -> pystr -> option A)
  : pystr -> option A :=
  cls p (fun a => cls q (fun b => k [a; b])).

Definition one (p : N -> bool) (k : pystr -> pystr -> option A)
  : pystr -> option A :=
  cls p (fun a => k [a]).

(** [(?P<d>3[0-1]|[1-2]\d|0[1-9]|[1-9]| [1-9])] *)
Definition group_d (k : pystr -> pystr -> option A) (s : pystr) : option A :=
  orelse (two (chr_is c3) (chr_in c0 c1) k s)
 (orelse (two (chr_in c1 c2) Unicode.isdecimal k s)
 (orelse (two (chr_is c0) (chr_in c1 c9) k s)
 (orelse (one (chr_in c1 c9) k s)
         (two (chr_is c_space) (chr_in c1 c9) k s)))).

(** [(?P<m>1[0-2]|0[1-9]|[1-9])] *)
Definition group_m (k : pystr -> pystr -> option A) (s : pystr) : option A :=
  orelse (two (chr_is c1) (chr_in c0 c2) k s)
 (orelse (two (chr_is c0) (chr_in c1 c9) k s)
         (one (chr_in c1 c9) k s)).

(** [(?P<Y>\d\d\d\d)] *)
Definition group_Y (k : pystr -> pystr -> option A) : pystr -> option A :=
  cls Unicode.isdecimal (fun a =>
  cls Unicode.isdecimal (fun b =>
  cls Unicode.isdecimal (fun c =>
  cls Unicode.isdecimal (fun d => k [a; b; c; d])))).

(** [\.] *)
Definition dot (k : pystr -> option A) : pystr -> option A :=
  cls (chr_is c_dot) (fun _ => k).
End Regex.

Arguments orelse {A} x y.
Arguments cls {A} p k s.
Arguments two {A} p q k.
Arguments one {A} p k.
Arguments group_d {A} k s.
Arguments group_m {A} k s.
Arguments group_Y {A} k.
Arguments dot {A} k.

(** The groups [d], [m], [Y] of the first match and the unmatched rest. *)
Definition match_dmY (s : pystr) : option (pystr * pystr * pystr * pystr) :=
  group_d (fun d =>
    dot (group_m (fun m =>
      dot (group_Y (fun Y rest => Some (d, m, Y, rest)))))) s.

(** [None] stands for the [ValueError] that [strptime] raises; its text
    is never seen, the only caller replaces it. *)
Definition strptime_dmY (s : pystr) : option date :=
  match match_dmY s with
  | Some (d, m, Y, []) =>
    match int Y, int m, int d with
    | Some y, Some mo, Some dd =>
      match date_new y mo dd with
      | Ok dt => Some dt
      | Raise _ => None
      end
    | _, _, _ => None
    end
  | _ => None
  end.

(** ** [d.strftime("%d.%m.%Y")]

    [%d] and [%m] are zero-padded to two digits.  [%Y] is delegated to
    the C library: some pad the year to four digits, glibc prints it as
    it is, so the choice is a parameter. *)
Definition strftime_dmY (pad_year : bool) (d : date) : pystr :=
  zfill 2 (str_of_int (day d)) ++ u "."
  ++ zfill 2 (str_of_int (month d)) ++ u "."
  ++ (if pad_year then zfill 4 (str_of_int (year d))
      else str_of_int (year d)).

End Datetime.

(* ================================================================== *)
(** * task1.py                                                          *)
(* ================================================================== *)

Import Py Datetime.

Open Scope list_scope.

(** What the program reads from its environment: the current date
    ([date.today()]) and the year padding of the C library's [strftime]. *)
Record Env : Type := mkEnv { today : date; pads_year : bool }.

(** ** Fields (lines 20-45) *)

Record Name : Type := mkName { Name_value : pystr }.
Record Phone : Type := mkPhone { Phone_value : pystr }.
Record Birthday : Type := mkBirthday { Birthday_value : date }.

(** [Phone.__init__] *)
Definition Phone_init (value : pystr) : result Phone :=
  if negb (isdigit value && (List.length value =? 10)%nat)
  then Raise (ValueError (u "Номер телефону має складатися з 10 цифр."))
  else Ok (mkPhone value).

(** [Birthday.__init__]: any [ValueError] of the parser is replaced. *)
Definition Birthday_init (value : pystr) : result Birthday :=
  match strptime_dmY value with
  | Some birthday_date => Ok (mkBirthday birthday_date)
  | None => Raise (ValueError (u "Invalid date format. Use DD.MM.YYYY"))
  end.

(** ** Contact records (lines 48-76) *)

Record record : Type := mkRecord {
  name : Name;
  phones : list Phone;
  birthday : option Birthday
}.

Definition record_init (name : pystr) : record :=
  mkRecord (mkName name) [] None.

(** [record.name.value] *)
Definition record_name (self : record) : pystr := Name_value (name self).

Definition record_add_phone (self : record) (phone_str : pystr)
  : result record :=
  match Phone_init phone_str with
  | Ok phone_obj =>
    Ok (mkRecord (name self) (phones self ++ [phone_obj]) (birthday self))
  | Raise e => Raise e
  end.

Definition record_add_birthday (env : Env) (self : record)
           (birthday_str : pystr) : result (record * pystr) :=
  match Birthday_init birthday_str with
  | Ok b =>
    Ok (mkRecord (name self) (phones self) (Some b),
        u "День народження для " ++ record_name self
        ++ u " встановлено на "
        ++ strftime_dmY (pads_year env) (Birthday_value b) ++ u ".")
  | Raise e => Raise e
  end.

(** Lines 68-70 and 97-99: the birthday moved to the current year, or to
    the next one when that day is already past. *)
Definition next_birthday (today bday : date) : result date :=
  match replace_year bday (year today) with
  | Ok next =>
    if date_ltb next today then replace_year bday (year today + 1)
    else Ok next
  | Raise e => Raise e
  end.

Definition record_days_to_birthday (env : Env) (self : record)
  : result (option Z) :=
  match birthday self with
  | None => Ok None
  | Some b =>
    match next_birthday (today env) (Birthday_value b) with
    | Ok next => Ok (Some (sub_days next (today env)))
    | Raise e => Raise e
    end
  end.

Definition record_str (env : Env) (self : record) : pystr :=
  let phones_str :=
    match phones self with
    | [] => u "Немає телефонів"
    | ps => join (u ", ") (map Phone_value ps)
    end in
  let birthday_str :=
    match birthday self with
    | Some b => strftime_dmY (pads_year env) (Birthday_value b)
    | None => u "Немає даних"
    end in
  u "Ім'я: " ++ record_name self ++ u " | Телефони: " ++ phones_str
  ++ u " | День народження: " ++ birthday_str.

(** The attributes of a [Record] instance: those set by [__init__] and
    the methods of the class body.  Looking up any other name the program
    uses raises [AttributeError]. *)
Definition record_attributes : list string :=
  ["name"; "phones"; "birthday"; "__init__"; "add_phone"; "add_birthday";
   "days_to_birthday"; "__str__"]%string.

Definition record_getattr (attr : string) : result unit :=
  if existsb (String.eqb attr) record_attributes then Ok tt
  else Raise (AttributeError
                (u "'Record' object has no attribute '" ++ u attr ++ u "'")).

(** ** The address book (lines 79-103)

    [AddressBook] is a [UserDict]: its state is the dictionary [data],
    from lower-cased names to records.  A record object is reachable only
    through the slot of its key, so a method that mutates the object is
    modelled by replacing the value of that slot. *)
Definition AddressBook : Type := dict record.

Definition add_record (r : record) (self : AddressBook) : AddressBook :=
  dict_set (lower (record_name r)) r self.

Definition find (name : pystr) (self : AddressBook) : option record :=
  dict_get (lower name) self.

Definition delete (name : pystr) (self : AddressBook) : pystr * AddressBook :=
  if dict_contains (lower name) self
  then (u "Запис " ++ name ++ u " видалено.", dict_del (lower name) self)
  else (u "Запис не знайдено.", self).

(** The loop of [get_upcoming_birthdays]; [acc] is the list [result]. *)
Fixpoint upcoming_loop (today : date) (days : Z)
         (acc : list (pystr * Z)) (records : list record)
  : result (list (pystr * Z)) :=
  match records with
  | [] => Ok acc
  | r :: rest =>
    match birthday r with
    | None => upcoming_loop today days acc rest
    | Some b =>
      match next_birthday today (Birthday_value b) with
      | Raise e => Raise e
      | Ok next_bday =>
        let delta := sub_days next_bday today in
        if (delta <=? days)%Z
        then upcoming_loop today days
                           (acc ++ [(record_name r, delta)]) rest
        else upcoming_loop today days acc rest
      end
    end
  end.

Definition get_upcoming_birthdays (env : Env) (days : Z) (self : AddressBook)
  : result (list (pystr * Z)) :=
  upcoming_loop (today env) days [] (dict_values self).

(** ** Handlers: computations on the shared book that may raise *)

Definition M (A : Type) : Type := AddressBook -> result A * AddressBook.

Definition ret {A} (a : A) : M A := fun book => (Ok a, book).

Definition raise {A} (e : exn) : M A := fun book => (Raise e, book).

Definition bind {A B} (m : M A) (k : A -> M B) : M B :=
  fun book =>
    match m book with
    | (Ok a, book') => k a book'
    | (Raise e, book') => (Raise e, book')
    end.

Declare Scope handler_scope.
Delimit Scope handler_scope with handler.
Notation "x <- m ;; k" := (bind m (fun x => k))
  (at level 61, m at next level, right associativity) : handler_scope.
Notation "m ;; k" := (bind m (fun _ => k))
  (at level 61, right associativity) : handler_scope.
Open Scope handler_scope.

(** [book.find(name)] *)
Definition book_find (name : pystr) : M (option record) :=
  fun book => (Ok (find name book), book).

(** [book.add_record(record)] *)
Definition book_add_record (r : record) : M unit :=
  fun book => (Ok tt, add_record r book).

(** A method call on the record object stored under [key], given its
    outcome [call] on the current value of the object: the object is
    updated in place when the method returns, untouched when it raises. *)
Definition mutate {A} (key : pystr) (call : result (record * A)) : M A :=
  fun book =>
    match call with
    | Ok (r', a) => (Ok a, dict_set key r' book)
    | Raise e => (Raise e, book)
    end.

Definition returning_none (call : result record) : result (record * unit) :=
  match call with
  | Ok r' => Ok (r', tt)
  | Raise e => Raise e
  end.

(** The decorator [input_error] (lines 106-116). *)
Definition input_error (func : list pystr -> M pystr) : list pystr -> M pystr :=
  fun args book =>
    match func args book with
    | (Raise (ValueError msg), book') =>
      (Ok (if truthy msg then msg else u "Invalid data provided."), book')
    | (Raise IndexError, book') =>
      (Ok (u "Enter the argument for the command"), book')
    | (Raise KeyError, book') => (Ok (u "Contact not found."), book')
    | other => other
    end.

(** The exceptions named in the [except] clauses of the decorator. *)
Definition caught (e : exn) : bool :=
  match e with
  | ValueError _ | IndexError | KeyError => true
  | TypeError | AttributeError _ => false
  end.

(** [parse_input] (lines 119-125) *)
Definition parse_input (user_input : pystr) : pystr * list pystr :=
  match split (strip user_input) with
  | [] => ([], [])
  | command :: args => (lower command, args)
  end.

(** ** Command handlers (lines 128-196)

    [raw_f] is the function [f] of the source before decoration. *)

Definition raw_add_contact (args : list pystr) : M pystr :=
  match args with
  | name :: phone :: _ =>
    found <- book_find name ;;
    rm <- match found with
          | None =>
            let r := record_init name in
            book_add_record r ;; ret (r, u "Контакт додано.")
          | Some r => ret (r, u "Контакт оновлено.")
          end ;;
    (if truthy phone
     then mutate (lower name) (returning_none (record_add_phone (fst rm) phone))
     else ret tt) ;;
    ret (snd rm)
  | _ => raise (unpack_error 2 (List.length args))
  end.

Definition add_contact := input_error raw_add_contact.

(** Line 147 calls [record.edit_phone(old_phone, new_phone)].  Had the
    lookup succeeded, the call would raise [TypeError]: no attribute of a
    record accepts two positional arguments. *)
Definition raw_change_contact (args : list pystr) : M pystr :=
  match args with
  | name :: old_phone :: new_phone :: _ =>
    found <- book_find name ;;
    match found with
    | None => raise KeyError
    | Some r =>
      match record_getattr "edit_phone" with
      | Ok _ => raise TypeError
      | Raise e => raise e
      end
    end
  | _ => raise (unpack_error 3 (List.length args))
  end.

Definition change_contact := input_error raw_change_contact.

Definition raw_phone (args : list pystr) : M pystr :=
  match args with
  | name :: _ =>
    found <- book_find name ;;
    match found with
    | None => raise KeyError
    | Some r =>
      match phones r with
      | [] => ret (u "Немає телефонів.")
      | ps => ret (join (u "; ") (map Phone_value ps))
      end
    end
  | _ => raise (unpack_error 1 (List.length args))
  end.

Definition phone := input_error raw_phone.

Definition raw_show_all (env : Env) (args : list pystr) : M pystr :=
  fun book =>
    match book with
    | [] => (Ok (u "Адресна книга порожня."), book)
    | _ => (Ok (join (u (String "010" ""))
                     (map (record_str env) (dict_values book))), book)
    end.

Definition show_all (env : Env) := input_error (raw_show_all env).

Definition raw_add_birthday (env : Env) (args : list pystr) : M pystr :=
  match args with
  | name :: birthday_str :: _ =>
    found <- book_find name ;;
    match found with
    | None => raise KeyError
    | Some r => mutate (lower name) (record_add_birthday env r birthday_str)
    end
  | _ => raise (unpack_error 2 (List.length args))
  end.

Definition add_birthday (env : Env) := input_error (raw_add_birthday env).

Definition raw_show_birthday (env : Env) (args : list pystr) : M pystr :=
  match args with
  | name :: _ =>
    found <- book_find name ;;
    match found with
    | None => raise KeyError
    | Some r =>
      match birthday r with
      | Some b =>
        ret (record_name r ++ u "'s birthday: "
             ++ strftime_dmY (pads_year env) (Birthday_value b))
      | None => ret (u "Дата народження не встановлена.")
      end
    end
  | _ => raise (unpack_error 1 (List.length args))
  end.

Definition show_birthday (env : Env) := input_error (raw_show_birthday env).

Definition raw_birthdays (env : Env) (args : list pystr) : M pystr :=
  fun book =>
    match get_upcoming_birthdays env 7 book with
    | Raise e => (Raise e, book)
    | Ok [] =>
      (Ok (u "Немає контактів з днем народження протягом наступного тижня."),
       book)
    | Ok upcoming =>
      (Ok (join (u (String "010" ""))
                (map (fun nd => fst nd ++ u " через " ++ str_of_int (snd nd)
                                ++ u " днів") upcoming)), book)
    end.

Definition birthdays (env : Env) := input_error (raw_birthdays env).

(** ** The dispatch loop (lines 199-226) *)

(** One iteration: the lines printed and where the process stands.
    [input], [print] and [save_data] are taken to succeed; their
    failures (end of input, an unwritable file) are not described. *)
Inductive step_result : Type :=
| Running (printed : list pystr) (book : AddressBook)
| Exited (printed : list pystr) (saved : AddressBook)
| Crashed (e : exn) (book : AddressBook).

(** [print(handler(args, book))]: an exception that leaves the handler
    is not caught by [main] and ends the process. *)
Definition print_result (r : result pystr * AddressBook) : step_result :=
  match r with
  | (Ok text, book') => Running [text] book'
  | (Raise e, book') => Crashed e book'
  end.

Definition commands : list pystr :=
  map u ["exit"; "close"; "hello"; "add"; "change"; "phone"; "all";
         "add-birthday"; "show-birthday"; "birthdays"]%string.

Definition main_step (env : Env) (book : AddressBook) (user_input : pystr)
  : step_result :=
  let (command, args) := parse_input user_input in
  if str_eqb command (u "exit") || str_eqb command (u "close")
  then Exited [u "Good bye!"] book
  else if str_eqb command (u "hello")
  then Running [u "How can I help you?"] book
  else if str_eqb command (u "add")
  then print_result (add_contact args book)
  else if str_eqb command (u "change")
  then print_result (change_contact args book)
  else if str_eqb command (u "phone")
  then print_result (phone args book)
  else if str_eqb command (u "all")
  then print_result (show_all env args book)
  else if str_eqb command (u "add-birthday")
  then print_result (add_birthday env args book)
  else if str_eqb command (u "show-birthday")
  then print_result (show_birthday env args book)
  else if str_eqb command (u "birthdays")
  then print_result (birthdays env args book)
  else Running [u "Invalid command."] book.

(** The loop over the lines typed by the user: the lines printed by the
    iterations that kept the loop running, and the iteration that ended
    it.  When the lines run out the process is still waiting for input. *)
Fixpoint main_loop (env : Env) (book : AddressBook) (inputs : list pystr)
  : list pystr * step_result :=
  match inputs with
  | [] => ([], Running [] book)
  | user_input :: rest =>
    match main_step env book user_input with
    | Running printed book' =>
      let (more, final) := main_loop env book' rest in
      (printed ++ more, final)
    | stop => ([], stop)
    end
  end.

(** [load_data]: the stored book, or an empty one without a file. *)
Definition load_data (stored : option AddressBook) : AddressBook :=
  match stored with
  | Some book => book
  | None => []
  end.

Definition main (env : Env) (stored : option AddressBook)
           (inputs : list pystr) : list pystr * step_result :=
  let (printed, final) := main_loop env (load_data stored) inputs in
  (u "Welcome to the assistant bot!" :: printed, final).

(** String literals and the Unicode tables stay folded in proofs. *)
Arguments u lit : simpl never.
Arguments lower s : simpl never.
Arguments split s : simpl never.
Arguments strip s : simpl never.

(* ================================================================== *)
(** * Predicates of the specification                                   *)
(* ================================================================== *)

(** "Exactly 10 decimal digits", the strings described by [^\d{10}$]. *)
Definition spec_ten_decimal_digits (s : pystr) : bool :=
  (List.length s =? 10)%nat && forallb Unicode.isdecimal s.

(** What [Phone] checks: ten characters, each a digit for [str.isdigit]. *)
Definition ten_isdigit_characters (s : pystr) : bool :=
  (List.length s =? 10)%nat && forallb Unicode.isdigit s.

(** "DD.MM.YYYY": two digits, a dot, two digits, a dot, four digits. *)
Definition ascii_digit (c : N) : bool := (48 <=? c)%N && (c <=? 57)%N.

Definition spec_matches_DD_MM_YYYY (s : pystr) : bool :=
  match s with
  | [d1; d2; p1; m1; m2; p2; y1; y2; y3; y4] =>
    forallb ascii_digit [d1; d2; m1; m2; y1; y2; y3; y4]
    && (p1 =? 46)%N && (p2 =? 46)%N
  | _ => false
  end.

Definition digit_value (c : N) : Z := Z.of_N (c - 48).

Definition ascii_digits : list N := [48; 49; 50; 51; 52; 53; 54; 55; 56; 57]%N.

Definition number2 (a b : N) : Z := (10 * digit_value a + digit_value b)%Z.

Definition number4 (a b c d : N) : Z :=
  (1000 * digit_value a + 100 * digit_value b
   + 10 * digit_value c + digit_value d)%Z.

(** The day, month and year written in a string of that format, when
    they are a date of the calendar. *)
Definition spec_denoted_date (s : pystr) : option date :=
  match s with
  | [d1; d2; _; m1; m2; _; y1; y2; y3; y4] =>
    let d := number2 d1 d2 in
    let m := number2 m1 m2 in
    let y := number4 y1 y2 y3 y4 in
    if valid_ymd y m d then Some (mkdate y m d) else None
  | _ => None
  end.

(** The numerals that [%d], [%m] and [%Y] accept when parsing: the
    leading zero of a day or a month is optional, a one-digit day may
    follow a space, and [\d] is a decimal digit of any script. *)
Definition day_numeral (t : pystr) : bool :=
  match t with
  | [a] => chr_in c1 c9 a
  | [a; b] =>
    (chr_is c3 a && chr_in c0 c1 b)
    || (chr_in c1 c2 a && Unicode.isdecimal b)
    || (chr_is c0 a && chr_in c1 c9 b)
    || (chr_is c_space a && chr_in c1 c9 b)
  | _ => false
  end.

Definition month_numeral (t : pystr) : bool :=
  match t with
  | [a] => chr_in c1 c9 a
  | [a; b] =>
    (chr_is c1 a && chr_in c0 c2 b) || (chr_is c0 a && chr_in c1 c9 b)
  | _ => false
  end.

Definition year_numeral (t : pystr) : bool :=
  (List.length t =? 4)%nat && forallb Unicode.isdecimal t.

(** [s] is a day, a month and a year numeral separated by dots, and they
    spell the valid date [dt]. *)
Inductive spells_date (s : pystr) (dt : date) : Prop :=
| spells_date_intro (dd mm yy : pystr) :
    s = dd ++ [c_dot] ++ mm ++ [c_dot] ++ yy ->
    day_numeral dd = true ->
    month_numeral mm = true ->
    year_numeral yy = true ->
    int dd = Some (day dt) ->
    int mm = Some (month dt) ->
    int yy = Some (year dt) ->
    valid dt = true ->
    spells_date s dt.

(** The entry of a record in the list of upcoming birthdays: its name
    and the days that remain, when it has a birthday that falls within
    the window. *)
Definition spec_upcoming_entry (today : date) (days : Z) (r : record)
  : list (pystr * Z) :=
  match birthday r with
  | Some b =>
    match next_birthday today (Birthday_value b) with
    | Ok next =>
      if (sub_days next today <=? days)%Z
      then [(record_name r, sub_days next today)]
      else []
    | Raise _ => []
    end
  | None => []
  end.

(** Every birthday of the book has a next occurrence: none is a 29th of
    February due in a year without one. *)
Definition birthdays_occur (today : date) (records : list record) : Prop :=
  forall r b, In r records -> birthday r = Some b ->
              is_ok (next_birthday today (Birthday_value b)) = true.

(** The only exceptions that leave a computation on the book are
    [ValueError] and [KeyError]. *)
Definition raises_value_or_key (func : M pystr) : Prop :=
  forall book e book',
    func book = (Raise e, book') ->
    (exists msg, e = ValueError msg) \/ e = KeyError.

(** Two characters that are equal or the two cases of one of the
    letters A to Z, and two strings that differ in this way only. *)
Definition ascii_capital (c : N) : bool := (65 <=? c)%N && (c <=? 90)%N.

Definition same_ascii_letter (a b : N) : bool :=
  (a =? b)%N
  || (ascii_capital a && (b =? a + 32)%N)
  || (ascii_capital b && (a =? b + 32)%N).

Definition ascii_case_variation (s t : pystr) : Prop :=
  Forall2 (fun a b => same_ascii_letter a b = true) s t.

Definition ascii_capitals : list N := map N.of_nat (seq 65 26).

(** The four facts about a character that [lower] looks at. *)
Definition same_case_class (a b : N) : bool :=
  str_eqb (Unicode.tolower_full a) (Unicode.tolower_full b)
  && Bool.eqb (a =? 0x3A3)%N (b =? 0x3A3)%N
  && Bool.eqb (Unicode.iscased a) (Unicode.iscased b)
  && Bool.eqb (Unicode.iscaseignorable a) (Unicode.iscaseignorable b).

(** Strings of one length whose characters agree, one by one, on these
    facts. *)
Definition same_case_classes (s t : pystr) : Prop :=
  Forall2 (fun a b => same_case_class a b = true) s t.

(* ================================================================== *)
(** * Invariants of the book and of the loop                            *)
(* ================================================================== *)

(** A token: a non-empty string without white space. *)
Definition token (t : pystr) : bool :=
  truthy t && forallb (fun c => negb (Unicode.isspace c)) t.

(** The keys of a dictionary, in its order. *)
Definition keys (book : AddressBook) : list pystr := map fst book.

(** A phone that passed the check of [Phone.__init__], a record that
    holds only such phones and a birthday that is a date of the
    calendar, and a book whose keys are distinct and are the lower-cased
    names of such records. *)
Definition valid_phone (p : Phone) : Prop :=
  ten_isdigit_characters (Phone_value p) = true.

Definition record_ok (r : record) : Prop :=
  Forall valid_phone (phones r)
  /\ forall b, birthday r = Some b -> valid (Birthday_value b) = true.

Definition entry_ok (kv : pystr * record) : Prop :=
  fst kv = lower (record_name (snd kv)) /\ record_ok (snd kv).

Definition book_ok (book : AddressBook) : Prop :=
  NoDup (keys book) /\ Forall entry_ok book.

(** The book an iteration of the loop leaves. *)
Definition step_book (s : step_result) : AddressBook :=
  match s with
  | Running _ book | Exited _ book | Crashed _ book => book
  end.

(** [r'] is the record [old] (a new record for [name] when there is
    none) with the same name, possibly more phones at the end, all
    checked, and the same birthday or a new one that is a date. *)
Definition grows (old : option record) (name : pystr) (r' : record) : Prop :=
  let r0 := match old with Some r => r | None => record_init name end in
  record_name r' = record_name r0
  /\ (exists extra, phones r' = phones r0 ++ extra /\ Forall valid_phone extra)
  /\ (birthday r' = birthday r0
      \/ exists b, birthday r' = Some b /\ valid (Birthday_value b) = true).

(** What an iteration may do to the book: nothing, or store under the
    key of a name a record grown from the one found for that name. *)
Inductive book_step (book : AddressBook) : AddressBook -> Prop :=
| book_step_same : book_step book book
| book_step_store (name : pystr) (r' : record) :
    grows (find name book) name r' ->
    book_step book (dict_set (lower name) r' book).

(** [r'] has the name and the phones of [r], possibly followed by more
    phones, and a birthday if [r] has one; and a book that holds, in the
    same order and under the same keys, records grown from those of
    another book, possibly followed by new entries. *)
Definition record_grew (r r' : record) : Prop :=
  record_name r' = record_name r
  /\ (exists extra, phones r' = phones r ++ extra)
  /\ (birthday r <> None -> birthday r' <> None).

Definition book_grew (book book' : AddressBook) : Prop :=
  (exists new, keys book' = keys book ++ new)
  /\ forall k r, dict_get k book = Some r ->
                 exists r', dict_get k book' = Some r' /\ record_grew r r'.

(** A birthday on the 29th of February. *)
Definition leap_day (d : date) : bool :=
  ((month d =? 2) && (day d =? 29))%Z.

(** The day of the year, from 1. *)
Definition yday (y m d : Z) : Z := (days_before_month y m + d)%Z.

(* ================================================================== *)
(** * Properties                                                        *)
(* ================================================================== *)

(** ** Phone numbers *)

Lemma isdecimal_isdigit (c : N) :
  Unicode.isdecimal c = true -> Unicode.isdigit c = true.
Proof.
  unfold Unicode.isdigit. intros ->. reflexivity.
Qed.

Lemma isdigit_ten_characters (s : pystr) :
  isdigit s && (List.length s =? 10)%nat = ten_isdigit_characters s.
Proof.
  unfold isdigit, ten_isdigit_characters.
  destruct s as [|c s]; [reflexivity|].
  cbn [truthy andb]. apply andb_comm.
Qed.

Lemma Phone_init_eq (s : pystr) :
  Phone_init s =
  if ten_isdigit_characters s then Ok (mkPhone s)
  else Raise (ValueError (u "Номер телефону має складатися з 10 цифр.")).
Proof.
  unfold Phone_init. rewrite isdigit_ten_characters.
  destruct (ten_isdigit_characters s); reflexivity.
Qed.

(** C5, as amended.  [Phone(s)] succeeds exactly when [s] has ten
    characters that are all digits in the sense of [str.isdigit]; the
    stored value is then [s] itself, every other string raises the
    validation error, and every string of ten decimal digits is among
    the accepted ones. *)
Theorem C5_phone_init_ten_isdigit (s : pystr) :
  ((exists p, Phone_init s = Ok p) <-> ten_isdigit_characters s = true)
  /\ (forall p, Phone_init s = Ok p -> Phone_value p = s)
  /\ (ten_isdigit_characters s = false ->
      Phone_init s =
      Raise (ValueError (u "Номер телефону має складатися з 10 цифр.")))
  /\ (spec_ten_decimal_digits s = true -> Phone_init s = Ok (mkPhone s)).
Proof.
  rewrite Phone_init_eq.
  repeat split.
  - intros [p Hp]. destruct (ten_isdigit_characters s); congruence.
  - intros ->. eauto.
  - intros p Hp. destruct (ten_isdigit_characters s); inversion Hp.
    reflexivity.
  - intros ->. reflexivity.
  - unfold spec_ten_decimal_digits, ten_isdigit_characters.
    intros H. apply andb_prop in H as [-> Hd]. cbn [andb].
    replace (forallb Unicode.isdigit s) with true; [reflexivity|].
    symmetry. rewrite forallb_forall in *.
    intros c Hc. apply isdecimal_isdigit, Hd, Hc.
Qed.

(** A phone number made of ten ASCII digits, and the claim of C5 put to
    use on it. *)
Lemma C5_phone_init_ten_isdigit_witness :
  spec_ten_decimal_digits (u "1234567890") = true
  /\ Phone_init (u "1234567890") = Ok (mkPhone (u "1234567890")).
Proof.
  split; [reflexivity|].
  apply (C5_phone_init_ten_isdigit (u "1234567890")). reflexivity.
Defined.

(** C5 as stated fails: ten superscript twos (U+00B2) are not decimal
    digits, yet [str.isdigit] holds of them and [Phone] accepts them. *)
Lemma C5_superscript_digits_accepted :
  spec_ten_decimal_digits (repeat 0xB2%N 10) = false
  /\ Phone_init (repeat 0xB2%N 10) = Ok (mkPhone (repeat 0xB2%N 10)).
Proof.
  split; reflexivity.
Qed.

(** ** Birthdays: parsing *)

Lemma date_new_ok (y m d : Z) (dt : date) :
  date_new y m d = Ok dt -> dt = mkdate y m d /\ valid_ymd y m d = true.
Proof.
  unfold date_new, valid_ymd.
  destruct ((MINYEAR <=? y)%Z && (y <=? MAXYEAR)%Z); cbn [negb andb];
    [|discriminate].
  destruct ((1 <=? m)%Z && (m <=? 12)%Z); cbn [negb andb]; [|discriminate].
  destruct ((1 <=? d)%Z && (d <=? days_in_month y m)%Z) eqn:E;
    cbn [negb]; [|discriminate].
  intros H; inversion H; subst. split; reflexivity.
Qed.

Lemma date_new_valid (y m d : Z) :
  valid_ymd y m d = true -> date_new y m d = Ok (mkdate y m d).
Proof.
  unfold date_new, valid_ymd. intros H.
  repeat (apply andb_prop in H as [H ?]).
  repeat match goal with E : _ = true |- _ => rewrite E; clear E end.
  reflexivity.
Qed.

Section RegexInversion.
Variable A : Type.
Variable k : pystr -> pystr -> option A.

Lemma orelse_some (x y : option A) (a : A) :
  orelse x y = Some a -> x = Some a \/ y = Some a.
Proof. destruct x; cbn; auto. Qed.

Lemma two_some (p q : N -> bool) (s : pystr) (x : A) :
  two p q k s = Some x ->
  exists a b rest,
    s = a :: b :: rest /\ p a = true /\ q b = true /\ k [a; b] rest = Some x.
Proof.
  unfold two, cls. destruct s as [|a [|b rest]]; try discriminate.
  - destruct (p a); discriminate.
  - destruct (p a) eqn:Ea; [|discriminate].
    destruct (q b) eqn:Eb; [|discriminate].
    intros H. exists a, b, rest. auto.
Qed.

Lemma one_some (p : N -> bool) (s : pystr) (x : A) :
  one p k s = Some x ->
  exists a rest, s = a :: rest /\ p a = true /\ k [a] rest = Some x.
Proof.
  unfold one, cls. destruct s as [|a rest]; [discriminate|].
  destruct (p a) eqn:Ea; [|discriminate].
  intros H. exists a, rest. auto.
Qed.

Lemma group_d_some (s : pystr) (x : A) :
  group_d k s = Some x ->
  exists dd rest,
    s = dd ++ rest /\ day_numeral dd = true /\ k dd rest = Some x.
Proof.
  unfold group_d. intros H.
  repeat (apply orelse_some in H as [H|H]);
    try (apply two_some in H as (a & b & rest & -> & Ha & Hb & Hk);
         exists [a; b], rest; cbn [day_numeral app];
         rewrite Ha, Hb, ?orb_true_r; auto);
    try (apply one_some in H as (a & rest & -> & Ha & Hk);
         exists [a], rest; cbn [day_numeral app]; auto).
Qed.

Lemma group_m_some (s : pystr) (x : A) :
  group_m k s = Some x ->
  exists mm rest,
    s = mm ++ rest /\ month_numeral mm = true /\ k mm rest = Some x.
Proof.
  unfold group_m. intros H.
  repeat (apply orelse_some in H as [H|H]);
    try (apply two_some in H as (a & b & rest & -> & Ha & Hb & Hk);
         exists [a; b], rest; cbn [month_numeral app];
         rewrite Ha, Hb, ?orb_true_r; auto);
    try (apply one_some in H as (a & rest & -> & Ha & Hk);
         exists [a], rest; cbn [month_numeral app]; auto).
Qed.

Lemma group_Y_some (s : pystr) (x : A) :
  group_Y k s = Some x ->
  exists yy rest,
    s = yy ++ rest /\ year_numeral yy = true /\ k yy rest = Some x.
Proof.
  unfold group_Y, cls.
  destruct s as [|a [|b [|c [|d rest]]]]; try discriminate;
    destruct (Unicode.isdecimal a) eqn:Ea; try discriminate;
    destruct (Unicode.isdecimal b) eqn:Eb; try discriminate;
    destruct (Unicode.isdecimal c) eqn:Ec; try discriminate;
    destruct (Unicode.isdecimal d) eqn:Ed; try discriminate.
  intros H. exists [a; b; c; d], rest.
  unfold year_numeral. cbn [List.length Nat.eqb forallb andb app].
  rewrite Ea, Eb, Ec, Ed. auto.
Qed.
End RegexInversion.

Lemma dot_some (A : Type) (k : pystr -> option A) (s : pystr) (x : A) :
  dot k s = Some x -> exists rest, s = c_dot :: rest /\ k rest = Some x.
Proof.
  unfold dot, cls, chr_is. destruct s as [|c rest]; [discriminate|].
  destruct (c =? c_dot)%N eqn:E; [|discriminate].
  apply N.eqb_eq in E. subst c. eauto.
Qed.

Lemma match_dmY_some (s d m Y rest : pystr) :
  match_dmY s = Some (d, m, Y, rest) ->
  s = d ++ [c_dot] ++ m ++ [c_dot] ++ Y ++ rest
  /\ day_numeral d = true /\ month_numeral m = true
  /\ year_numeral Y = true.
Proof.
  unfold match_dmY. intros H.
  apply group_d_some in H as (dd & r1 & -> & Hd & H).
  apply dot_some in H as (r2 & -> & H).
  apply group_m_some in H as (mm & r3 & -> & Hm & H).
  apply dot_some in H as (r4 & -> & H).
  apply group_Y_some in H as (yy & r5 & -> & Hy & H).
  inversion H; subst. auto.
Qed.

Lemma strptime_dmY_some (s : pystr) (dt : date) :
  strptime_dmY s = Some dt -> spells_date s dt.
Proof.
  unfold strptime_dmY.
  destruct (match_dmY s) as [[[[d m] Y] rest]|] eqn:E; [|discriminate].
  destruct rest; [|discriminate].
  apply match_dmY_some in E as (-> & Hd & Hm & Hy).
  destruct (int Y) as [y|] eqn:EY; [|discriminate].
  destruct (int m) as [mo|] eqn:Em; [|discriminate].
  destruct (int d) as [dd|] eqn:Ed; [|discriminate].
  destruct (date_new y mo dd) as [dt'|] eqn:En; [|discriminate].
  intros H; inversion H; subst dt'.
  apply date_new_ok in En as [-> Hv].
  rewrite app_nil_r.
  eapply spells_date_intro; eauto.
Qed.

(** ** Birthdays: strings in the strict format *)

Lemma ascii_digit_In (c : N) : ascii_digit c = true -> In c ascii_digits.
Proof.
  unfold ascii_digit, ascii_digits. intros H.
  apply andb_prop in H as [H1 H2].
  apply N.leb_le in H1. apply N.leb_le in H2.
  assert (c = 48 \/ c = 49 \/ c = 50 \/ c = 51 \/ c = 52 \/ c = 53
          \/ c = 54 \/ c = 55 \/ c = 56 \/ c = 57)%N as D by lia.
  cbn [In]. intuition auto.
Qed.

(** A property of two (four) ASCII digits is checked on all of them. *)
Lemma forall_digits2 (P : N -> N -> bool) :
  forallb (fun a => forallb (P a) ascii_digits) ascii_digits = true ->
  forall a b, ascii_digit a = true -> ascii_digit b = true -> P a b = true.
Proof.
  intros H a b Ha Hb.
  rewrite forallb_forall in H.
  specialize (H a (ascii_digit_In a Ha)).
  rewrite forallb_forall in H.
  exact (H b (ascii_digit_In b Hb)).
Qed.

Lemma forall_digits4 (P : N -> N -> N -> N -> bool) :
  forallb (fun a => forallb (fun b =>
    forallb (fun c => forallb (P a b c) ascii_digits) ascii_digits)
    ascii_digits) ascii_digits = true ->
  forall a b c d,
    ascii_digit a = true -> ascii_digit b = true ->
    ascii_digit c = true -> ascii_digit d = true -> P a b c d = true.
Proof.
  intros H a b c d Ha Hb Hc Hd.
  rewrite forallb_forall in H.
  specialize (H a (ascii_digit_In a Ha)).
  apply (forall_digits2 (fun c d => P a b c d)); auto.
  rewrite forallb_forall in H. exact (H b (ascii_digit_In b Hb)).
Qed.

Lemma str_eqb_eq (a b : pystr) : str_eqb a b = true <-> a = b.
Proof.
  unfold str_eqb. destruct (list_eq_dec N.eq_dec a b); split;
    congruence.
Qed.

Lemma option_Z_check (a : option Z) (z : Z) :
  match a with Some v => (v =? z)%Z | None => false end = true -> a = Some z.
Proof.
  destruct a; [|discriminate].
  intros H. apply Z.eqb_eq in H. congruence.
Qed.

Lemma ascii_digit_isdecimal (c : N) :
  ascii_digit c = true -> Unicode.isdecimal c = true.
Proof.
  intros H. apply ascii_digit_In in H. cbn [In ascii_digits] in H.
  repeat (destruct H as [<-|H]; [reflexivity|]). destruct H.
Qed.

Lemma int_number2 (a b : N) :
  ascii_digit a = true -> ascii_digit b = true ->
  int [a; b] = Some (number2 a b).
Proof.
  intros Ha Hb. apply option_Z_check.
  revert a b Ha Hb.
  apply (forall_digits2
           (fun a b => match int [a; b] with
                       | Some v => (v =? number2 a b)%Z
                       | None => false
                       end)).
  vm_compute. reflexivity.
Qed.

Lemma int_number4 (a b c d : N) :
  ascii_digit a = true -> ascii_digit b = true ->
  ascii_digit c = true -> ascii_digit d = true ->
  int [a; b; c; d] = Some (number4 a b c d).
Proof.
  intros Ha Hb Hc Hd. apply option_Z_check.
  revert a b c d Ha Hb Hc Hd.
  apply (forall_digits4
           (fun a b c d => match int [a; b; c; d] with
                           | Some v => (v =? number4 a b c d)%Z
                           | None => false
                           end)).
  vm_compute. reflexivity.
Qed.

(** Two digits that spell a number from 1 to 31 (1 to 12) are a day
    (month) numeral. *)
Lemma day_numeral_number2 (a b : N) :
  ascii_digit a = true -> ascii_digit b = true ->
  (1 <= number2 a b <= 31)%Z -> day_numeral [a; b] = true.
Proof.
  intros Ha Hb [H1 H2].
  assert (implb ((1 <=? number2 a b)%Z && (number2 a b <=? 31)%Z)
                (day_numeral [a; b]) = true) as E.
  { clear H1 H2. revert a b Ha Hb.
    apply (forall_digits2
             (fun a b => implb ((1 <=? number2 a b)%Z
                                && (number2 a b <=? 31)%Z)
                               (day_numeral [a; b]))).
    vm_compute. reflexivity. }
  apply Z.leb_le in H1. apply Z.leb_le in H2.
  rewrite H1, H2 in E. exact E.
Qed.

Lemma month_numeral_number2 (a b : N) :
  ascii_digit a = true -> ascii_digit b = true ->
  (1 <= number2 a b <= 12)%Z -> month_numeral [a; b] = true.
Proof.
  intros Ha Hb [H1 H2].
  assert (implb ((1 <=? number2 a b)%Z && (number2 a b <=? 12)%Z)
                (month_numeral [a; b]) = true) as E.
  { clear H1 H2. revert a b Ha Hb.
    apply (forall_digits2
             (fun a b => implb ((1 <=? number2 a b)%Z
                                && (number2 a b <=? 12)%Z)
                               (month_numeral [a; b]))).
    vm_compute. reflexivity. }
  apply Z.leb_le in H1. apply Z.leb_le in H2.
  rewrite H1, H2 in E. exact E.
Qed.

Lemma ascii_digit_not_space (a : N) :
  ascii_digit a = true -> chr_is c_space a = false.
Proof.
  unfold ascii_digit, chr_is, c_space. intros H.
  apply andb_prop in H as [H _]. apply N.leb_le in H.
  apply N.eqb_neq. lia.
Qed.

Section RegexStrict.
Variable A : Type.
Variable k : pystr -> pystr -> option A.

(** On a two-digit numeral the first alternative that matches the two
    digits is the one the match goes through, provided the rest of the
    pattern matches after it. *)
Lemma group_d_two (a b : N) (rest : pystr) (x : A) :
  ascii_digit a = true ->
  day_numeral [a; b] = true ->
  k [a; b] rest = Some x ->
  group_d k (a :: b :: rest) = Some x.
Proof.
  intros Ha Hn Hk. apply ascii_digit_not_space in Ha.
  unfold group_d, two, one, cls, orelse. unfold day_numeral in Hn.
  rewrite Ha in *. rewrite Hk.
  destruct (chr_is c3 a), (chr_in c0 c1 b), (chr_in c1 c2 a),
    (Unicode.isdecimal b), (chr_is c0 a), (chr_in c1 c9 b);
    cbn in Hn |- *; try reflexivity; discriminate.
Qed.

Lemma group_m_two (a b : N) (rest : pystr) (x : A) :
  month_numeral [a; b] = true ->
  k [a; b] rest = Some x ->
  group_m k (a :: b :: rest) = Some x.
Proof.
  intros Hn Hk.
  unfold group_m, two, one, cls, orelse. unfold month_numeral in Hn.
  rewrite Hk.
  destruct (chr_is c1 a), (chr_in c0 c2 b), (chr_is c0 a),
    (chr_in c1 c9 b); cbn in Hn |- *; try reflexivity; discriminate.
Qed.

Lemma group_Y_digits (a b c d : N) (rest : pystr) :
  ascii_digit a = true -> ascii_digit b = true ->
  ascii_digit c = true -> ascii_digit d = true ->
  group_Y k (a :: b :: c :: d :: rest) = k [a; b; c; d] rest.
Proof.
  intros Ha Hb Hc Hd. unfold group_Y, cls.
  rewrite !ascii_digit_isdecimal by assumption. reflexivity.
Qed.
End RegexStrict.

Lemma dot_cons (A : Type) (k : pystr -> option A) (rest : pystr) :
  dot k (c_dot :: rest) = k rest.
Proof.
  unfold dot, cls, chr_is. rewrite N.eqb_refl. reflexivity.
Qed.

Lemma match_dmY_strict (d1 d2 m1 m2 y1 y2 y3 y4 : N) :
  forallb ascii_digit [d1; d2; m1; m2; y1; y2; y3; y4] = true ->
  day_numeral [d1; d2] = true ->
  month_numeral [m1; m2] = true ->
  match_dmY [d1; d2; c_dot; m1; m2; c_dot; y1; y2; y3; y4]
  = Some ([d1; d2], [m1; m2], [y1; y2; y3; y4], []).
Proof.
  cbn [forallb]. intros H Hd Hm.
  repeat (apply andb_prop in H as [? H]).
  unfold match_dmY.
  apply group_d_two; auto. rewrite dot_cons.
  apply group_m_two; auto. rewrite dot_cons.
  rewrite group_Y_digits by assumption. reflexivity.
Qed.

(** Formatting two (four) digits' worth of number gives the digits
    back; without padding, a year needs its first digit not to be 0. *)
Lemma zfill2_number2 (a b : N) :
  ascii_digit a = true -> ascii_digit b = true ->
  zfill 2 (str_of_int (number2 a b)) = [a; b].
Proof.
  intros Ha Hb. apply str_eqb_eq. revert a b Ha Hb.
  apply (forall_digits2
           (fun a b => str_eqb (zfill 2 (str_of_int (number2 a b))) [a; b])).
  vm_compute. reflexivity.
Qed.

Lemma zfill4_number4 (a b c d : N) :
  ascii_digit a = true -> ascii_digit b = true ->
  ascii_digit c = true -> ascii_digit d = true ->
  zfill 4 (str_of_int (number4 a b c d)) = [a; b; c; d].
Proof.
  intros Ha Hb Hc Hd. apply str_eqb_eq. revert a b c d Ha Hb Hc Hd.
  apply (forall_digits4
           (fun a b c d =>
              str_eqb (zfill 4 (str_of_int (number4 a b c d))) [a; b; c; d])).
  vm_compute. reflexivity.
Qed.

Lemma str_of_int_number4 (a b c d : N) :
  ascii_digit a = true -> ascii_digit b = true ->
  ascii_digit c = true -> ascii_digit d = true ->
  (1000 <= number4 a b c d)%Z ->
  str_of_int (number4 a b c d) = [a; b; c; d].
Proof.
  intros Ha Hb Hc Hd Hy.
  assert (implb (1000 <=? number4 a b c d)%Z
                (str_eqb (str_of_int (number4 a b c d)) [a; b; c; d])
          = true) as E.
  { clear Hy. revert a b c d Ha Hb Hc Hd.
    apply (forall_digits4
             (fun a b c d =>
                implb (1000 <=? number4 a b c d)%Z
                      (str_eqb (str_of_int (number4 a b c d))
                               [a; b; c; d]))).
    vm_compute. reflexivity. }
  apply Z.leb_le in Hy. rewrite Hy in E. apply str_eqb_eq. exact E.
Qed.

Lemma valid_ymd_bounds (y m d : Z) :
  valid_ymd y m d = true ->
  (1 <= y <= 9999 /\ 1 <= m <= 12 /\ 1 <= d <= 31)%Z.
Proof.
  unfold valid_ymd, MINYEAR, MAXYEAR. intros H.
  repeat (apply andb_prop in H as [H ?]).
  repeat match goal with
         | E : (_ <=? _)%Z = true |- _ => apply Z.leb_le in E
         end.
  assert (days_in_month y m <= 31)%Z.
  { unfold days_in_month.
    destruct m as [|p|p]; try lia.
    do 4 (try destruct p as [p|p|]; try lia);
      destruct (is_leap y); lia. }
  lia.
Qed.

(** A string in the strict format that denotes a date is parsed to that
    date. *)
Lemma strptime_dmY_strict (s : pystr) (dt : date) :
  spec_matches_DD_MM_YYYY s = true ->
  spec_denoted_date s = Some dt ->
  strptime_dmY s = Some dt.
Proof.
  unfold spec_matches_DD_MM_YYYY, spec_denoted_date.
  destruct s as [|d1 [|d2 [|p1 [|m1 [|m2 [|p2 [|y1 [|y2 [|y3 [|y4 [|? ?]]]]]]]]]]];
    try discriminate.
  intros H. apply andb_prop in H as [H Hp2]. apply andb_prop in H as [H Hp1].
  apply N.eqb_eq in Hp1, Hp2. subst p1 p2.
  destruct (valid_ymd _ _ _) eqn:Hv; [|discriminate].
  intros E; inversion E; subst dt; clear E.
  pose proof (valid_ymd_bounds _ _ _ Hv) as (Hy & Hm & Hd).
  pose proof H as H'. cbn [forallb] in H'.
  repeat (apply andb_prop in H' as [? H']).
  unfold strptime_dmY.
  change 46%N with c_dot.
  rewrite match_dmY_strict; auto using day_numeral_number2, month_numeral_number2.
  rewrite int_number4, !int_number2 by assumption.
  rewrite date_new_valid by assumption. reflexivity.
Qed.

Lemma strftime_dmY_strict (pad : bool) (s : pystr) (dt : date) :
  spec_matches_DD_MM_YYYY s = true ->
  spec_denoted_date s = Some dt ->
  pad = true \/ (1000 <= year dt)%Z ->
  strftime_dmY pad dt = s.
Proof.
  unfold spec_matches_DD_MM_YYYY, spec_denoted_date.
  destruct s as [|d1 [|d2 [|p1 [|m1 [|m2 [|p2 [|y1 [|y2 [|y3 [|y4 [|? ?]]]]]]]]]]];
    try discriminate.
  intros H. apply andb_prop in H as [H Hp2]. apply andb_prop in H as [H Hp1].
  apply N.eqb_eq in Hp1, Hp2. subst p1 p2.
  destruct (valid_ymd _ _ _) eqn:Hv; [|discriminate].
  intros E; inversion E; subst dt; clear E.
  cbn [forallb] in H. repeat (apply andb_prop in H as [? H]).
  cbn [year]. intros Hpad.
  unfold strftime_dmY. cbn [year month day].
  rewrite !zfill2_number2 by assumption.
  destruct pad.
  - rewrite zfill4_number4 by assumption. reflexivity.
  - destruct Hpad as [|Hy]; [discriminate|].
    rewrite str_of_int_number4 by assumption.
  reflexivity.
Qed.

(** C6, as amended.  [Birthday(s)] succeeds only on a string that
    [strptime] reads as a day, a month and a year numeral separated by
    dots and spelling a date of the calendar (years 1 to 9999); any other
    string raises the validation error.  A day or month numeral may have
    one digit.  Every string in the strict format DD.MM.YYYY that denotes
    a date is accepted with that date, and formatting the date gives the
    string back when the year has four significant digits or the C
    library pads the year. *)
Theorem C6_birthday_init_strptime (pad : bool) (s : pystr) :
  (forall b, Birthday_init s = Ok b -> spells_date s (Birthday_value b))
  /\ ((exists b, Birthday_init s = Ok b)
      \/ Birthday_init s
         = Raise (ValueError (u "Invalid date format. Use DD.MM.YYYY")))
  /\ (forall dt,
         spec_matches_DD_MM_YYYY s = true ->
         spec_denoted_date s = Some dt ->
         Birthday_init s = Ok (mkBirthday dt)
         /\ (pad = true \/ (1000 <= year dt)%Z -> strftime_dmY pad dt = s)).
Proof.
  unfold Birthday_init. repeat split.
  - intros b. destruct (strptime_dmY s) as [dt|] eqn:E; [|discriminate].
    intros H; inversion H; subst b. cbn [Birthday_value].
    apply strptime_dmY_some, E.
  - destruct (strptime_dmY s); eauto.
  - rewrite (strptime_dmY_strict s dt H H0). reflexivity.
  - intros Hpad. apply strftime_dmY_strict; assumption.
Qed.

Lemma C6_birthday_init_strptime_witness :
  Birthday_init (u "15.06.1990") = Ok (mkBirthday (mkdate 1990 6 15))
  /\ strftime_dmY false (mkdate 1990 6 15) = u "15.06.1990".
Proof.
  destruct (C6_birthday_init_strptime false (u "15.06.1990")) as (_ & _ & H).
  destruct (H (mkdate 1990 6 15)) as [H1 H2];
    [reflexivity | reflexivity |].
  split; [exact H1|].
  apply H2. right. cbn [year]. discriminate.
Defined.

(** C6 as stated fails: ["1.1.2020"] is not in the format DD.MM.YYYY, yet
    [Birthday] accepts it, and the stored date is formatted as
    ["01.01.2020"]. *)
Lemma C6_one_digit_day_and_month_accepted :
  spec_matches_DD_MM_YYYY (u "1.1.2020") = false
  /\ Birthday_init (u "1.1.2020") = Ok (mkBirthday (mkdate 2020 1 1))
  /\ strftime_dmY true (mkdate 2020 1 1) = u "01.01.2020"
  /\ strftime_dmY false (mkdate 2020 1 1) = u "01.01.2020".
Proof.
  repeat split; reflexivity.
Qed.

(** Without year padding a year below 1000 loses its leading zeros. *)
Example strftime_unpadded_year :
  Birthday_init (u "01.01.0999") = Ok (mkBirthday (mkdate 999 1 1))
  /\ strftime_dmY false (mkdate 999 1 1) = u "01.01.999".
Proof.
  split; reflexivity.
Qed.

(** ** Days to the next birthday *)

Lemma next_birthday_this_year (today bday : date) :
  valid_ymd (year today) (month bday) (day bday) = true ->
  date_ltb (mkdate (year today) (month bday) (day bday)) today = false ->
  next_birthday today bday
  = Ok (mkdate (year today) (month bday) (day bday)).
Proof.
  intros Hv Hlt. unfold next_birthday, replace_year.
  rewrite (date_new_valid _ _ _ Hv), Hlt. reflexivity.
Qed.

Lemma next_birthday_next_year (today bday : date) :
  valid_ymd (year today) (month bday) (day bday) = true ->
  valid_ymd (year today + 1) (month bday) (day bday) = true ->
  date_ltb (mkdate (year today) (month bday) (day bday)) today = true ->
  next_birthday today bday
  = Ok (mkdate (year today + 1) (month bday) (day bday)).
Proof.
  intros Hv Hv' Hlt. unfold next_birthday, replace_year.
  rewrite (date_new_valid _ _ _ Hv), Hlt.
  apply date_new_valid, Hv'.
Qed.

(** On the day of the birthday the result is 0, in every year. *)
Lemma days_to_birthday_on_the_day (env : Env) (r : record) (b : date) :
  birthday r = Some (mkBirthday b) ->
  valid (today env) = true ->
  month b = month (today env) ->
  day b = day (today env) ->
  record_days_to_birthday env r = Ok (Some 0%Z).
Proof.
  intros Hb Hv Hm Hd. unfold record_days_to_birthday. rewrite Hb.
  cbn [Birthday_value]. destruct env as [[y m d] pad].
  cbn [today month day year valid] in *. subst.
  rewrite next_birthday_this_year; cbn [year month day].
  - unfold sub_days. f_equal. f_equal. lia.
  - exact Hv.
  - unfold date_ltb. cbn [year month day].
    rewrite !Z.ltb_irrefl, !Z.eqb_refl. reflexivity.
Qed.

(** Without a birthday the result is [None]; on 2024-01-01 a birthday
    of 2020-01-10 is 9 days away and one of 2020-01-01 is 0 days away;
    and a birthday whose day in the current year is before today is
    counted from its day in the next year, when the day exists in both
    years. *)
Lemma days_to_birthday_examples_and_rule :
  (forall env r, birthday r = None -> record_days_to_birthday env r = Ok None)
  /\ (forall pad r,
         birthday r = Some (mkBirthday (mkdate 2020 1 10)) ->
         record_days_to_birthday (mkEnv (mkdate 2024 1 1) pad) r
         = Ok (Some 9%Z))
  /\ (forall pad r,
         birthday r = Some (mkBirthday (mkdate 2020 1 1)) ->
         record_days_to_birthday (mkEnv (mkdate 2024 1 1) pad) r
         = Ok (Some 0%Z))
  /\ (forall env r b,
         birthday r = Some (mkBirthday b) ->
         valid_ymd (year (today env)) (month b) (day b) = true ->
         valid_ymd (year (today env) + 1) (month b) (day b) = true ->
         date_ltb (mkdate (year (today env)) (month b) (day b)) (today env)
         = true ->
         record_days_to_birthday env r
         = Ok (Some (toordinal (mkdate (year (today env) + 1)
                                       (month b) (day b))
                     - toordinal (today env))%Z)).
Proof.
  unfold record_days_to_birthday. repeat split.
  - intros env r ->. reflexivity.
  - intros pad r ->. reflexivity.
  - intros pad r ->. reflexivity.
  - intros env r b -> Hv Hv' Hlt. cbn [Birthday_value].
    rewrite next_birthday_next_year by assumption. reflexivity.
Qed.

(** C8 does not hold of the code for a birthday on the 29th of February,
    a date that [Birthday] accepts.  On 2024-03-01 its day in the current
    year, 2024-02-29, is strictly before today, so it should count as
    occurring next year; the code asks for the 29th of February 2025 and
    [date.replace] raises [ValueError] instead of a number of days being
    returned.  In a year without the day, as on 2023-03-01, the first
    [replace] already raises. *)
Theorem C8_leap_day_birthday_raises :
  let r := mkRecord (mkName (u "Alice")) []
                    (Some (mkBirthday (mkdate 2000 2 29))) in
  Birthday_init (u "29.02.2000") = Ok (mkBirthday (mkdate 2000 2 29))
  /\ replace_year (mkdate 2000 2 29) 2024 = Ok (mkdate 2024 2 29)
  /\ date_ltb (mkdate 2024 2 29) (mkdate 2024 3 1) = true
  /\ record_days_to_birthday (mkEnv (mkdate 2024 3 1) false) r
     = Raise (ValueError (u "day is out of range for month"))
  /\ record_days_to_birthday (mkEnv (mkdate 2023 3 1) false) r
     = Raise (ValueError (u "day is out of range for month")).
Proof.
  vm_compute. auto.
Qed.

(** ** Upcoming birthdays *)

Lemma upcoming_loop_ok (today : date) (days : Z) (records : list record) :
  birthdays_occur today records ->
  forall acc,
    upcoming_loop today days acc records
    = Ok (acc ++ flat_map (spec_upcoming_entry today days) records).
Proof.
  induction records as [|r rest IH]; intros Hocc acc.
  - cbn. rewrite app_nil_r. reflexivity.
  - assert (birthdays_occur today rest) as Hrest.
    { intros r' b' Hin. apply Hocc. right. exact Hin. }
    cbn [upcoming_loop flat_map]. unfold spec_upcoming_entry at 1.
    destruct (birthday r) as [b|] eqn:Eb.
    + pose proof (Hocc r b (or_introl eq_refl) Eb) as Hok.
      destruct (next_birthday today (Birthday_value b)) as [next|e];
        [|discriminate].
      destruct (sub_days next today <=? days)%Z.
      * rewrite IH by assumption. rewrite <- app_assoc. reflexivity.
      * rewrite IH by assumption. reflexivity.
    + rewrite IH by assumption. reflexivity.
Qed.

(** When every birthday has a next occurrence, the result lists, in the
    order of the book, the records whose birthday is at most [days] days
    away. *)
Lemma get_upcoming_birthdays_ok (env : Env) (days : Z) (book : AddressBook) :
  birthdays_occur (today env) (dict_values book) ->
  get_upcoming_birthdays env days book
  = Ok (flat_map (spec_upcoming_entry (today env) days) (dict_values book)).
Proof.
  intros H. unfold get_upcoming_birthdays.
  rewrite upcoming_loop_ok by assumption. reflexivity.
Qed.

(** The window is closed: a birthday in 0 or 7 days is listed, one in 8
    days is not. *)
Example upcoming_window_boundaries :
  let env := mkEnv (mkdate 2024 1 1) false in
  let contact n d :=
      (lower n, mkRecord (mkName n) [] (Some (mkBirthday d))) in
  get_upcoming_birthdays env 7
    [contact (u "Today") (mkdate 1990 1 1);
     contact (u "Seven") (mkdate 1991 1 8);
     contact (u "Eight") (mkdate 1992 1 9)]
  = Ok [(u "Today", 0%Z); (u "Seven", 7%Z)].
Proof.
  vm_compute. reflexivity.
Qed.

(** C9 does not hold of every book.  On 2023-03-01 Bob's birthday is two
    days away, but the book also holds a birthday on the 29th of
    February: moving it to 2023 raises [ValueError], the scan stops, and
    the [birthdays] command shows the message of the exception instead
    of Bob.  The book is the one the four commands below build. *)
Theorem C9_leap_day_birthday_stops_scan :
  let env := mkEnv (mkdate 2023 3 1) false in
  let alice := mkRecord (mkName (u "Alice")) [mkPhone (u "1234567890")]
                        (Some (mkBirthday (mkdate 2000 2 29))) in
  let bob := mkRecord (mkName (u "Bob")) [mkPhone (u "0987654321")]
                      (Some (mkBirthday (mkdate 1990 3 3))) in
  let book := [(u "alice", alice); (u "bob", bob)] in
  snd (main_loop env []
         (map u ["add Alice 1234567890"; "add-birthday Alice 29.02.2000";
                 "add Bob 0987654321"; "add-birthday Bob 03.03.1990"]%string))
  = Running [] book
  /\ spec_upcoming_entry (today env) 7 bob = [(u "Bob", 2%Z)]
  /\ get_upcoming_birthdays env 7 book
     = Raise (ValueError (u "day is out of range for month"))
  /\ main_step env book (u "birthdays")
     = Running [u "day is out of range for month"] book.
Proof.
  vm_compute. auto.
Qed.

(** ** The address book *)

Lemma str_eqb_refl (a : pystr) : str_eqb a a = true.
Proof. apply str_eqb_eq. reflexivity. Qed.

Lemma str_eqb_neq (a b : pystr) : a <> b -> str_eqb a b = false.
Proof.
  intros H. destruct (str_eqb a b) eqn:E; [|reflexivity].
  apply str_eqb_eq in E. contradiction.
Qed.

Section DictFacts.
Variable V : Type.
Implicit Types (d : dict V) (k : pystr) (v : V).

Lemma dict_get_set_same k v d : dict_get k (dict_set k v d) = Some v.
Proof.
  induction d as [|[k' v'] rest IH]; cbn.
  - rewrite str_eqb_refl. reflexivity.
  - destruct (str_eqb k' k) eqn:E; cbn; rewrite E; auto.
Qed.

Lemma dict_get_set_other k k' v d :
  k <> k' -> dict_get k' (dict_set k v d) = dict_get k' d.
Proof.
  intros Hne. induction d as [|[k0 v0] rest IH]; cbn.
  - rewrite str_eqb_neq by assumption. reflexivity.
  - destruct (str_eqb k0 k) eqn:E; cbn.
    + apply str_eqb_eq in E. subst k0.
      rewrite str_eqb_neq by assumption. reflexivity.
    + destruct (str_eqb k0 k'); auto.
Qed.
End DictFacts.

Lemma find_add_record (book : AddressBook) (r : record) (v : pystr) :
  lower v = lower (record_name r) -> find v (add_record r book) = Some r.
Proof.
  intros H. unfold find, add_record. rewrite H. apply dict_get_set_same.
Qed.

(** *** Variations in the case of ASCII letters have the same key *)

Lemma ascii_capital_In (c : N) : ascii_capital c = true -> In c ascii_capitals.
Proof.
  unfold ascii_capital, ascii_capitals. intros H.
  apply andb_prop in H as [H1 H2].
  apply N.leb_le in H1. apply N.leb_le in H2.
  rewrite <- (N2Nat.id c). apply in_map, in_seq. lia.
Qed.

Lemma same_case_class_refl (a : N) : same_case_class a a = true.
Proof.
  unfold same_case_class.
  rewrite str_eqb_refl, !Bool.eqb_reflx. reflexivity.
Qed.

Lemma same_case_class_sym (a b : N) :
  same_case_class a b = true -> same_case_class b a = true.
Proof.
  unfold same_case_class. intros H.
  repeat (apply andb_prop in H as [H ?]).
  apply str_eqb_eq in H.
  repeat match goal with
         | E : Bool.eqb _ _ = true |- _ => apply Bool.eqb_prop in E
         end.
  rewrite H. rewrite str_eqb_refl.
  repeat match goal with E : _ = _ |- _ => rewrite E; clear E end.
  rewrite !Bool.eqb_reflx. reflexivity.
Qed.

Lemma capital_same_case_class (a : N) :
  ascii_capital a = true -> same_case_class a (a + 32) = true.
Proof.
  intros H. apply ascii_capital_In in H. revert a H.
  apply (proj1 (forallb_forall (fun a => same_case_class a (a + 32))
                               ascii_capitals)).
  vm_compute. reflexivity.
Qed.

Lemma same_ascii_letter_class (a b : N) :
  same_ascii_letter a b = true -> same_case_class a b = true.
Proof.
  unfold same_ascii_letter. intros H.
  apply orb_prop in H as [H|H]; [apply orb_prop in H as [H|H]|].
  - apply N.eqb_eq in H. subst b. apply same_case_class_refl.
  - apply andb_prop in H as [Ha Hb]. apply N.eqb_eq in Hb. subst b.
    apply capital_same_case_class, Ha.
  - apply andb_prop in H as [Hb Ha]. apply N.eqb_eq in Ha. subst a.
    apply same_case_class_sym, capital_same_case_class, Hb.
Qed.

Lemma same_case_class_facts (a b : N) :
  same_case_class a b = true ->
  Unicode.tolower_full a = Unicode.tolower_full b
  /\ (a =? 0x3A3)%N = (b =? 0x3A3)%N
  /\ Unicode.iscased a = Unicode.iscased b
  /\ Unicode.iscaseignorable a = Unicode.iscaseignorable b.
Proof.
  unfold same_case_class. intros H.
  repeat (apply andb_prop in H as [H ?]).
  apply str_eqb_eq in H.
  repeat match goal with
         | E : Bool.eqb _ _ = true |- _ => apply Bool.eqb_prop in E
         end.
  auto.
Qed.

Lemma skip_ignorable_related (s t : pystr) :
  same_case_classes s t ->
  same_case_classes (skip_ignorable s) (skip_ignorable t).
Proof.
  induction 1 as [|a b s t Hab Hst IH]; [constructor|].
  cbn [skip_ignorable].
  destruct (same_case_class_facts a b Hab) as (_ & _ & _ & <-).
  destruct (Unicode.iscaseignorable a); [exact IH|].
  constructor; assumption.
Qed.

Lemma final_sigma_related (before before' after after' : pystr) :
  same_case_classes before before' -> same_case_classes after after' ->
  final_sigma before after = final_sigma before' after'.
Proof.
  intros Hb Ha. unfold final_sigma.
  destruct (skip_ignorable_related _ _ Hb) as [|a b ? ? Hab _];
    [reflexivity|].
  destruct (same_case_class_facts a b Hab) as (_ & _ & <- & _).
  destruct (skip_ignorable_related _ _ Ha) as [|c d ? ? Hcd _];
    [reflexivity|].
  destruct (same_case_class_facts c d Hcd) as (_ & _ & <- & _).
  reflexivity.
Qed.

Lemma lower_from_related (s t : pystr) :
  same_case_classes s t ->
  forall before before',
    same_case_classes before before' ->
    lower_from before s = lower_from before' t.
Proof.
  induction 1 as [|a b s t Hab Hst IH]; intros before before' Hb;
    [reflexivity|].
  cbn [lower_from].
  destruct (same_case_class_facts a b Hab) as (<- & <- & _ & _).
  rewrite (final_sigma_related before before' s t Hb Hst).
  rewrite (IH (a :: before) (b :: before')); [reflexivity|].
  constructor; assumption.
Qed.

Lemma ascii_case_variation_lower (s t : pystr) :
  ascii_case_variation s t -> lower s = lower t.
Proof.
  intros H. unfold lower. apply lower_from_related; [|constructor].
  induction H; constructor; auto using same_ascii_letter_class.
Qed.

(** C7, as amended.  After [add_record r], [find] returns [r] for every
    string whose lower-cased form ([str.lower]) is that of the name of
    [r]; the strings that differ from the name in the case of ASCII
    letters only are among them. *)
Theorem C7_find_same_lower (book : AddressBook) (r : record) (v : pystr) :
  (lower v = lower (record_name r) -> find v (add_record r book) = Some r)
  /\ (ascii_case_variation (record_name r) v ->
      find v (add_record r book) = Some r).
Proof.
  split.
  - apply find_add_record.
  - intros H. apply find_add_record. symmetry.
    apply ascii_case_variation_lower, H.
Qed.

Lemma C7_find_same_lower_witness :
  lower (u "JOHN smith") = lower (u "John Smith")
  /\ ascii_case_variation (u "John Smith") (u "JOHN smith")
  /\ find (u "JOHN smith")
          (add_record (record_init (u "John Smith"))
                      [(u "bob", record_init (u "Bob"))])
     = Some (record_init (u "John Smith")).
Proof.
  assert (lower (u "JOHN smith") = lower (u "John Smith")) as Hl
      by (vm_compute; reflexivity).
  assert (ascii_case_variation (u "John Smith") (u "JOHN smith")) as Hv.
  { unfold ascii_case_variation.
    let s := eval vm_compute in (u "John Smith") in
    let t := eval vm_compute in (u "JOHN smith") in
    change (Forall2 (fun a b => same_ascii_letter a b = true) s t).
    repeat (constructor; [vm_compute; reflexivity|]). constructor. }
  destruct (C7_find_same_lower [(u "bob", record_init (u "Bob"))]
                               (record_init (u "John Smith"))
                               (u "JOHN smith")) as [H1 H2].
  split; [exact Hl|]. split; [exact Hv|].
  apply H2. exact Hv.
Defined.

(** C7 as stated fails.  The letters of the upper-case spelling U+0391
    U+03A3 lower-case, one by one, to the name U+03B1 U+03C3; but
    [str.lower] turns a sigma at the end of a word into the final sigma
    U+03C2, so the key computed for the upper-case spelling is not the
    key of the record. *)
Lemma C7_final_sigma_variation_not_found :
  let name := [0x3B1; 0x3C3]%N in
  let variation := [0x391; 0x3A3]%N in
  flat_map (fun c => lower [c]) variation = name
  /\ lower name = name
  /\ lower variation = [0x3B1; 0x3C2]%N
  /\ find variation (add_record (record_init name) []) = None.
Proof.
  vm_compute. auto.
Qed.

(** ** The decorator *)

Section InputError.
Variable func : list pystr -> M pystr.
Variables (args : list pystr) (book book' : AddressBook).

Lemma input_error_Ok (text : pystr) :
  func args book = (Ok text, book') ->
  input_error func args book = (Ok text, book').
Proof. unfold input_error. intros ->. reflexivity. Qed.

Lemma input_error_ValueError (msg : pystr) :
  func args book = (Raise (ValueError msg), book') ->
  truthy msg = true ->
  input_error func args book = (Ok msg, book').
Proof. unfold input_error. intros -> ->. reflexivity. Qed.

Lemma input_error_IndexError :
  func args book = (Raise IndexError, book') ->
  input_error func args book
  = (Ok (u "Enter the argument for the command"), book').
Proof. unfold input_error. intros ->. reflexivity. Qed.

Lemma input_error_KeyError :
  func args book = (Raise KeyError, book') ->
  input_error func args book = (Ok (u "Contact not found."), book').
Proof. unfold input_error. intros ->. reflexivity. Qed.

Lemma input_error_AttributeError (msg : pystr) :
  func args book = (Raise (AttributeError msg), book') ->
  input_error func args book = (Raise (AttributeError msg), book').
Proof. unfold input_error. intros ->. reflexivity. Qed.
End InputError.

(** ** Adding a contact with an invalid phone *)

Lemma Phone_init_not_ok (s : pystr) :
  is_ok (Phone_init s) = false ->
  Phone_init s
  = Raise (ValueError (u "Номер телефону має складатися з 10 цифр.")).
Proof.
  rewrite Phone_init_eq. destruct (ten_isdigit_characters s);
    [discriminate|reflexivity].
Qed.

Lemma find_none_changes (book : AddressBook) (r : record) (v : pystr) :
  lower v = lower (record_name r) ->
  find v book = None -> add_record r book <> book.
Proof.
  intros Hl Hnone Heq.
  pose proof (find_add_record book r v Hl) as H.
  rewrite Heq in H. congruence.
Qed.

(** ** Tokens *)

Lemma split_from_spaces (cur ws : pystr) :
  forallb Unicode.isspace ws = true -> split_from cur ws = split_from cur [].
Proof.
  revert cur. induction ws as [|c ws IH]; intros cur H; [reflexivity|].
  cbn [forallb] in H. apply andb_prop in H as [Hc Hws].
  cbn [split_from]. rewrite Hc, (IH [] Hws). reflexivity.
Qed.

Lemma split_from_trailing_spaces (t ws cur : pystr) :
  forallb Unicode.isspace ws = true ->
  split_from cur (t ++ ws) = split_from cur t.
Proof.
  intros H. revert cur. induction t as [|c t IH]; intros cur.
  - apply split_from_spaces, H.
  - cbn [app split_from]. rewrite !IH. reflexivity.
Qed.

Lemma split_lstrip (s : pystr) : split_from [] (lstrip s) = split_from [] s.
Proof.
  induction s as [|c r IH]; [reflexivity|].
  cbn [lstrip split_from]. destruct (Unicode.isspace c) eqn:E; [auto|].
  cbn [split_from]. rewrite E. reflexivity.
Qed.

Lemma lstrip_prefix (t : pystr) :
  exists ws, t = ws ++ lstrip t /\ forallb Unicode.isspace ws = true.
Proof.
  induction t as [|c r (ws & E & H)].
  - exists []. auto.
  - cbn [lstrip]. destruct (Unicode.isspace c) eqn:Ec.
    + exists (c :: ws). cbn [app forallb]. rewrite Ec, H, <- E. auto.
    + exists []. auto.
Qed.

(** [strip] is redundant before [split]. *)
Lemma split_strip (s : pystr) : split (strip s) = split s.
Proof.
  unfold split, strip.
  destruct (lstrip_prefix (rev (lstrip s))) as (ws & E & H).
  assert (lstrip s = rev (lstrip (rev (lstrip s))) ++ rev ws) as Ht.
  { rewrite <- rev_app_distr, <- E, rev_involutive. reflexivity. }
  rewrite <- (split_lstrip s).
  remember (rev (lstrip (rev (lstrip s)))) as core.
  rewrite Ht, split_from_trailing_spaces; [reflexivity|].
  apply forallb_forall. intros c Hc. apply in_rev in Hc.
  rewrite forallb_forall in H. auto.
Qed.

Lemma split_spaces (s : pystr) :
  forallb Unicode.isspace s = true -> split s = [].
Proof.
  intros H. unfold split. rewrite split_from_spaces by assumption.
  reflexivity.
Qed.

Lemma parse_input_tokens (line tok : pystr) (args : list pystr) :
  split line = tok :: args -> parse_input line = (lower tok, args).
Proof.
  intros H. unfold parse_input. rewrite split_strip, H. reflexivity.
Qed.

Lemma parse_input_spaces (line : pystr) :
  forallb Unicode.isspace line = true -> parse_input line = ([], []).
Proof.
  intros H. unfold parse_input.
  rewrite split_strip, split_spaces by assumption. reflexivity.
Qed.

(** ** Dispatch *)

Lemma main_step_not_a_command (env : Env) (book : AddressBook)
      (line command : pystr) (args : list pystr) :
  parse_input line = (command, args) ->
  ~ In command commands ->
  main_step env book line = Running [u "Invalid command."] book.
Proof.
  intros Hp Hn. unfold main_step. rewrite Hp.
  repeat match goal with
         | |- context [str_eqb command (u ?lit)] =>
           let E := fresh "E" in
           destruct (str_eqb command (u lit)) eqn:E;
           [ apply str_eqb_eq in E; exfalso; apply Hn; rewrite E;
             unfold commands; cbn [map In]; tauto | ]
         end.
  reflexivity.
Qed.

Lemma main_loop_running (env : Env) (book book' : AddressBook)
      (line : pystr) (rest printed : list pystr) :
  main_step env book line = Running printed book' ->
  main_loop env book (line :: rest)
  = (printed ++ fst (main_loop env book' rest),
     snd (main_loop env book' rest)).
Proof.
  intros H. cbn [main_loop]. rewrite H.
  destruct (main_loop env book' rest). reflexivity.
Qed.

Lemma empty_not_a_command : ~ In [] commands.
Proof.
  vm_compute. intuition discriminate.
Qed.

(** C3, as amended.  A line whose first token, lower-cased, is not a
    command prints the "invalid command" message and the loop goes on
    with the same book; a line of white space only (or an empty one) is
    treated in the same way: the message is printed for it too. *)
Theorem C3_invalid_command (env : Env) (book : AddressBook)
        (line : pystr) (rest : list pystr) :
  (forall tok args,
      split line = tok :: args ->
      ~ In (lower tok) commands ->
      main_step env book line = Running [u "Invalid command."] book
      /\ main_loop env book (line :: rest)
         = ([u "Invalid command."] ++ fst (main_loop env book rest),
            snd (main_loop env book rest)))
  /\ (forallb Unicode.isspace line = true ->
      main_step env book line = Running [u "Invalid command."] book
      /\ main_loop env book (line :: rest)
         = ([u "Invalid command."] ++ fst (main_loop env book rest),
            snd (main_loop env book rest))).
Proof.
  split.
  - intros tok args Hs Hn.
    assert (main_step env book line = Running [u "Invalid command."] book)
      as H by (eapply main_step_not_a_command;
               eauto using parse_input_tokens).
    split; [exact H|]. apply main_loop_running, H.
  - intros Hs.
    assert (main_step env book line = Running [u "Invalid command."] book)
      as H by (eapply main_step_not_a_command;
               eauto using parse_input_spaces, empty_not_a_command).
    split; [exact H|]. apply main_loop_running, H.
Qed.

Lemma C3_invalid_command_witness :
  main_step (mkEnv (mkdate 2024 1 1) false) [] (u "remove John")
  = Running [u "Invalid command."] []
  /\ main_step (mkEnv (mkdate 2024 1 1) false) [] (u "   ")
     = Running [u "Invalid command."] [].
Proof.
  destruct (C3_invalid_command (mkEnv (mkdate 2024 1 1) false) []
                               (u "remove John") []) as [H1 _].
  destruct (C3_invalid_command (mkEnv (mkdate 2024 1 1) false) []
                               (u "   ") []) as [_ H2].
  split.
  - apply (H1 (u "remove") [u "John"]).
    + vm_compute. reflexivity.
    + vm_compute. intuition discriminate.
  - apply H2. vm_compute. reflexivity.
Defined.

(** C3 as stated fails on the empty line: it is not skipped silently,
    the "invalid command" message is printed for it. *)
Lemma C3_empty_line_prints_invalid_command :
  main_step (mkEnv (mkdate 2024 1 1) false) [] []
  = Running [u "Invalid command."] []
  /\ [u "Invalid command."] <> ([] : list pystr).
Proof.
  split; [vm_compute; reflexivity | discriminate].
Qed.

(** ** What the handlers raise *)

Lemma date_new_raises (y m d : Z) (e : exn) :
  date_new y m d = Raise e -> exists msg, e = ValueError msg.
Proof.
  unfold date_new.
  repeat match goal with
         | |- context [if negb ?b then _ else _] => destruct b; cbn [negb]
         end;
    intros H; inversion H; eauto.
Qed.

Lemma next_birthday_raises (today bday : date) (e : exn) :
  next_birthday today bday = Raise e -> exists msg, e = ValueError msg.
Proof.
  unfold next_birthday, replace_year.
  destruct (date_new (year today) _ _) as [next|e'] eqn:E1.
  - destruct (date_ltb next today); [|discriminate].
    apply date_new_raises.
  - intros H; inversion H; subst. eapply date_new_raises, E1.
Qed.

Lemma upcoming_loop_raises (today : date) (days : Z) (records : list record)
      (e : exn) :
  forall acc,
    upcoming_loop today days acc records = Raise e ->
    exists msg, e = ValueError msg.
Proof.
  induction records as [|r rest IH]; intros acc; cbn [upcoming_loop].
  - discriminate.
  - destruct (birthday r) as [b|]; [|apply IH].
    destruct (next_birthday today (Birthday_value b)) as [next|e'] eqn:E.
    + destruct (sub_days next today <=? days)%Z; apply IH.
    + intros H; inversion H; subst. eapply next_birthday_raises, E.
Qed.

Lemma Phone_init_raises (s : pystr) (e : exn) :
  Phone_init s = Raise e -> exists msg, e = ValueError msg.
Proof.
  rewrite Phone_init_eq. destruct (ten_isdigit_characters s);
    intros H; inversion H; eauto.
Qed.

Lemma Birthday_init_raises (s : pystr) (e : exn) :
  Birthday_init s = Raise e -> exists msg, e = ValueError msg.
Proof.
  unfold Birthday_init. destruct (strptime_dmY s);
    intros H; inversion H; eauto.
Qed.

(** The bodies of the handlers other than [change_contact] raise only
    [ValueError] and [KeyError]; no body raises [IndexError]. *)
Ltac raised :=
  let H := fresh "H" in
  intros H; inversion H; subst;
  solve [ left; unfold unpack_error; eauto
        | right; reflexivity
        | left; eauto using Phone_init_raises, Birthday_init_raises ].

Lemma raw_add_contact_raises (args : list pystr) :
  raises_value_or_key (raw_add_contact args).
Proof.
  intros book e book'. unfold raw_add_contact.
  destruct args as [|name [|phone rest]]; try (unfold raise; raised).
  unfold bind, book_find, book_add_record, ret, mutate, returning_none,
    record_add_phone.
  destruct (find name book); cbn [fst snd];
    (destruct (truthy phone); [|discriminate]);
    (destruct (Phone_init phone) as [p|e'] eqn:E; [discriminate|]);
    intros H; inversion H; subst; left;
    eapply Phone_init_raises, E.
Qed.

Lemma raw_phone_raises (args : list pystr) :
  raises_value_or_key (raw_phone args).
Proof.
  intros book e book'. unfold raw_phone.
  destruct args as [|name rest]; try (unfold raise; raised).
  unfold bind, book_find, ret, raise.
  destruct (find name book) as [r|]; [|raised].
  destruct (phones r); discriminate.
Qed.

Lemma raw_show_all_raises (env : Env) (args : list pystr) :
  raises_value_or_key (raw_show_all env args).
Proof.
  intros book e book'. unfold raw_show_all. destruct book; discriminate.
Qed.

Lemma raw_add_birthday_raises (env : Env) (args : list pystr) :
  raises_value_or_key (raw_add_birthday env args).
Proof.
  intros book e book'. unfold raw_add_birthday.
  destruct args as [|name [|birthday_str rest]]; try (unfold raise; raised).
  unfold bind, book_find, raise, mutate, record_add_birthday.
  destruct (find name book) as [r|]; [|raised].
  destruct (Birthday_init birthday_str) as [b|e'] eqn:E; [discriminate|].
  intros H; inversion H; subst. left. eapply Birthday_init_raises, E.
Qed.

Lemma raw_show_birthday_raises (env : Env) (args : list pystr) :
  raises_value_or_key (raw_show_birthday env args).
Proof.
  intros book e book'. unfold raw_show_birthday.
  destruct args as [|name rest]; try (unfold raise; raised).
  unfold bind, book_find, ret, raise.
  destruct (find name book) as [r|]; [|raised].
  destruct (birthday r); discriminate.
Qed.

Lemma raw_birthdays_raises (env : Env) (args : list pystr) :
  raises_value_or_key (raw_birthdays env args).
Proof.
  intros book e book'. unfold raw_birthdays, get_upcoming_birthdays.
  destruct (upcoming_loop _ _ _ _) as [[|? ?]|e'] eqn:E; try discriminate.
  intros H; inversion H; subst. left. eapply upcoming_loop_raises, E.
Qed.

(** A decorated handler whose body raises only [ValueError] and
    [KeyError] always returns a string. *)
Lemma input_error_returns (func : list pystr -> M pystr)
      (args : list pystr) (book : AddressBook) :
  raises_value_or_key (func args) ->
  exists text book', input_error func args book = (Ok text, book').
Proof.
  intros Hr. unfold input_error.
  destruct (func args book) as [[text|e] book'] eqn:E; [eauto|].
  destruct (Hr _ _ _ E) as [[msg ->]| ->]; eauto.
Qed.

Lemma print_result_returns (r : result pystr * AddressBook) :
  (exists text book', r = (Ok text, book')) ->
  exists text book', print_result r = Running [text] book'.
Proof.
  intros (text & book' & ->). cbn. eauto.
Qed.

(** ** The [change] command *)

Lemma record_getattr_edit_phone :
  record_getattr "edit_phone"
  = Raise (AttributeError (u "'Record' object has no attribute 'edit_phone'")).
Proof.
  vm_compute. reflexivity.
Qed.

(** On a known contact and with its three arguments, [change_contact]
    raises [AttributeError] through the decorator, whatever the phones. *)
Lemma change_contact_known_contact
      (book : AddressBook) (name old_phone new_phone : pystr)
      (rest : list pystr) (r : record) :
  find name book = Some r ->
  change_contact (name :: old_phone :: new_phone :: rest) book
  = (Raise (AttributeError (u "'Record' object has no attribute 'edit_phone'")),
     book).
Proof.
  intros H. apply input_error_AttributeError.
  unfold raw_change_contact, bind, book_find. rewrite H.
  rewrite record_getattr_edit_phone. reflexivity.
Qed.

Lemma change_contact_unknown_contact
      (book : AddressBook) (name old_phone new_phone : pystr)
      (rest : list pystr) :
  find name book = None ->
  change_contact (name :: old_phone :: new_phone :: rest) book
  = (Ok (u "Contact not found."), book).
Proof.
  intros H. apply input_error_KeyError.
  unfold raw_change_contact, bind, book_find. rewrite H. reflexivity.
Qed.

Lemma change_contact_too_few (book : AddressBook) (args : list pystr) :
  (List.length args < 3)%nat ->
  exists text, change_contact args book = (Ok text, book).
Proof.
  intros Hlen. unfold change_contact, input_error, raw_change_contact.
  destruct args as [|a [|b [|c rest]]]; cbn [List.length] in Hlen;
    try lia; unfold raise, unpack_error; eauto.
Qed.

(** Failures of [save_data], [print] and [input] aside, which
    [main_step] does not describe, the only iteration whose handler ends
    the process is a [change] command with its three arguments for a
    contact of the book. *)
Lemma main_step_crashed (env : Env) (book book' : AddressBook)
      (line : pystr) (e : exn) :
  main_step env book line = Crashed e book' ->
  exists name old_phone new_phone rest r,
    parse_input line = (u "change", name :: old_phone :: new_phone :: rest)
    /\ find name book = Some r
    /\ e = AttributeError (u "'Record' object has no attribute 'edit_phone'")
    /\ book' = book.
Proof.
  unfold main_step. destruct (parse_input line) as [command args].
  destruct (str_eqb command (u "exit") || str_eqb command (u "close"));
    [discriminate|].
  destruct (str_eqb command (u "hello")); [discriminate|].
  destruct (str_eqb command (u "add")).
  { destruct (print_result_returns _
                (input_error_returns raw_add_contact args book
                   (raw_add_contact_raises args))) as (t & b & E).
    unfold add_contact. rewrite E. discriminate. }
  destruct (str_eqb command (u "change")) eqn:Ec.
  { apply str_eqb_eq in Ec. subst command.
    destruct args as [|name [|old_phone [|new_phone rest]]];
      try (match goal with
           | |- context [change_contact ?a book] =>
             destruct (change_contact_too_few book a) as (t & E);
             [cbn [List.length]; lia|]; rewrite E; discriminate
           end).
    destruct (find name book) as [r|] eqn:Ef.
    - rewrite (change_contact_known_contact _ _ _ _ _ r Ef).
      cbn [print_result]. intros H; inversion H; subst.
      exists name, old_phone, new_phone, rest, r. auto.
    - rewrite (change_contact_unknown_contact _ _ _ _ _ Ef). discriminate. }
  destruct (str_eqb command (u "phone")).
  { destruct (print_result_returns _
                (input_error_returns raw_phone args book
                   (raw_phone_raises args))) as (t & b & E).
    unfold phone. rewrite E. discriminate. }
  destruct (str_eqb command (u "all")).
  { destruct (print_result_returns _
                (input_error_returns (raw_show_all env) args book
                   (raw_show_all_raises env args))) as (t & b & E).
    unfold show_all. rewrite E. discriminate. }
  destruct (str_eqb command (u "add-birthday")).
  { destruct (print_result_returns _
                (input_error_returns (raw_add_birthday env) args book
                   (raw_add_birthday_raises env args))) as (t & b & E).
    unfold add_birthday. rewrite E. discriminate. }
  destruct (str_eqb command (u "show-birthday")).
  { destruct (print_result_returns _
                (input_error_returns (raw_show_birthday env) args book
                   (raw_show_birthday_raises env args))) as (t & b & E).
    unfold show_birthday. rewrite E. discriminate. }
  destruct (str_eqb command (u "birthdays")).
  { destruct (print_result_returns _
                (input_error_returns (raw_birthdays env) args book
                   (raw_birthdays_raises env args))) as (t & b & E).
    unfold birthdays. rewrite E. discriminate. }
  discriminate.
Qed.

(** C1 does not hold of the code: [change] on a contact of the book
    never replaces a phone.  Line 147 calls [record.edit_phone], a method
    that class [Record] does not define; the [AttributeError] is not an
    exception the decorator catches, the phone list is left as it was and
    the process ends. *)
Theorem C1_change_does_not_replace_phone :
  let env := mkEnv (mkdate 2024 1 1) false in
  let john := mkRecord (mkName (u "John")) [mkPhone (u "1234567890")] None in
  let book := [(u "john", john)] in
  let missing :=
      AttributeError (u "'Record' object has no attribute 'edit_phone'") in
  main_step env [] (u "add John 1234567890")
  = Running [u "Контакт додано."] book
  /\ is_ok (Phone_init (u "5551234567")) = true
  /\ change_contact [u "John"; u "1234567890"; u "5551234567"] book
     = (Raise missing, book)
  /\ main_step env book (u "change John 1234567890 5551234567")
     = Crashed missing book.
Proof.
  vm_compute. auto.
Qed.

(** C2 does not hold of the code: after [add John 1234567890] the line
    [change John 1234567890 5551234567] ends the process with an
    uncaught [AttributeError]; nothing is printed for it and the next
    line is never read. *)
Theorem C2_change_ends_the_process :
  let env := mkEnv (mkdate 2024 1 1) false in
  let john := mkRecord (mkName (u "John")) [mkPhone (u "1234567890")] None in
  main env None
       (map u ["add John 1234567890"; "change John 1234567890 5551234567";
               "hello"]%string)
  = ([u "Welcome to the assistant bot!"; u "Контакт додано."],
     Crashed (AttributeError
                (u "'Record' object has no attribute 'edit_phone'"))
             [(u "john", john)]).
Proof.
  vm_compute. reflexivity.
Qed.

(** ** Missing arguments *)

Lemma unpack_message_truthy (expected got : nat) :
  truthy (unpack_message expected got) = true.
Proof.
  unfold unpack_message. vm_compute. reflexivity.
Qed.

Lemma unpack_message_not_fixed (expected got : nat) :
  unpack_message expected got <> u "Enter the argument for the command".
Proof.
  unfold unpack_message. intros H. vm_compute in H. discriminate.
Qed.

(** X17.  With too few tokens every handler that unpacks its arguments
    returns the text of the [ValueError] of the unpacking, which names
    the two counts; the book is not touched. *)
Lemma too_few_arguments (env : Env) (book : AddressBook) (args : list pystr) :
  ((List.length args < 2)%nat ->
   add_contact args book = (Ok (unpack_message 2 (List.length args)), book))
  /\ ((List.length args < 3)%nat ->
      change_contact args book
      = (Ok (unpack_message 3 (List.length args)), book))
  /\ ((List.length args < 1)%nat ->
      phone args book = (Ok (unpack_message 1 (List.length args)), book))
  /\ ((List.length args < 2)%nat ->
      add_birthday env args book
      = (Ok (unpack_message 2 (List.length args)), book))
  /\ ((List.length args < 1)%nat ->
      show_birthday env args book
      = (Ok (unpack_message 1 (List.length args)), book)).
Proof.
  repeat split; intros Hlen;
    apply input_error_ValueError; try apply unpack_message_truthy;
    destruct args as [|a [|b [|c rest]]]; cbn [List.length] in Hlen;
    try lia; reflexivity.
Qed.

(** C4 does not hold of the code: [add John] is answered with the text of
    the [ValueError] raised by the unpacking of the arguments, not with
    the fixed message of the [IndexError] clause, and that text goes
    through the same clause of the decorator as a validation error. *)
Theorem C4_missing_argument_message :
  let env := mkEnv (mkdate 2024 1 1) false in
  let shown :=
      u "not enough values to unpack (expected at least 2, got 1)" in
  main_step env [] (u "add John") = Running [shown] []
  /\ raw_add_contact [u "John"] [] = (Raise (ValueError shown), [])
  /\ shown <> u "Enter the argument for the command"
  /\ main_step env [] (u "change John 1234567890")
     = Running [u "not enough values to unpack (expected at least 3, got 2)"]
               [].
Proof.
  vm_compute. repeat split; discriminate.
Qed.

(* ================================================================== *)
(** * Further properties of the program                                 *)
(* ================================================================== *)

(** ** Dictionaries *)

Section DictKeys.
Variable V : Type.
Implicit Types (d : dict V) (k : pystr) (v : V).

Lemma dict_get_In k v d : dict_get k d = Some v -> In (k, v) d.
Proof.
  induction d as [|[k' v'] rest IH]; cbn; [discriminate|].
  destruct (str_eqb k' k) eqn:E.
  - apply str_eqb_eq in E. subst k'. intros H; inversion H. auto.
  - auto.
Qed.

Lemma dict_get_None k d : dict_get k d = None <-> ~ In k (map fst d).
Proof.
  induction d as [|[k' v'] rest IH]; cbn; [tauto|].
  destruct (str_eqb k' k) eqn:E.
  - apply str_eqb_eq in E. subst k'. split; [discriminate|tauto].
  - assert (k' <> k) by (intros ->; rewrite str_eqb_refl in E; discriminate).
    tauto.
Qed.

Lemma dict_set_keys k v d :
  map fst (dict_set k v d)
  = map fst d ++ (if dict_contains k d then [] else [k]).
Proof.
  unfold dict_contains.
  induction d as [|[k' v'] rest IH]; cbn; [reflexivity|].
  destruct (str_eqb k' k) eqn:E; cbn.
  - rewrite app_nil_r. reflexivity.
  - rewrite IH. reflexivity.
Qed.

Lemma dict_set_length k v d :
  List.length (dict_set k v d)
  = (List.length d + (if dict_contains k d then 0 else 1))%nat.
Proof.
  rewrite <- (length_map fst), dict_set_keys, length_app, length_map.
  destruct (dict_contains k d); reflexivity.
Qed.

Lemma dict_set_NoDup k v d :
  NoDup (map fst d) -> NoDup (map fst (dict_set k v d)).
Proof.
  intros H. rewrite dict_set_keys. unfold dict_contains.
  destruct (dict_get k d) eqn:E; [rewrite app_nil_r; exact H|].
  apply dict_get_None in E.
  apply NoDup_app; [exact H|repeat constructor; cbn; tauto|].
  intros x Hx [<-|[]]. contradiction.
Qed.

Lemma dict_set_set k v v' d : dict_set k v' (dict_set k v d) = dict_set k v' d.
Proof.
  induction d as [|[k0 v0] rest IH]; cbn.
  - rewrite str_eqb_refl. reflexivity.
  - destruct (str_eqb k0 k) eqn:E; cbn; rewrite E; [reflexivity|].
    rewrite IH. reflexivity.
Qed.

Lemma dict_set_Forall (P : pystr * V -> Prop) k v d :
  Forall P d -> P (k, v) -> Forall P (dict_set k v d).
Proof.
  intros Hd Hkv. induction Hd as [|[k' v'] rest Hx Hrest IH]; cbn.
  - repeat constructor. exact Hkv.
  - destruct (str_eqb k' k) eqn:E.
    + apply str_eqb_eq in E. subst k'. constructor; assumption.
    + constructor; assumption.
Qed.

Lemma dict_del_keys_incl k d x : In x (map fst (dict_del k d)) -> In x (map fst d).
Proof.
  induction d as [|[k' v'] rest IH]; cbn; [tauto|].
  destruct (str_eqb k' k); cbn; tauto.
Qed.

Lemma dict_del_NoDup k d : NoDup (map fst d) -> NoDup (map fst (dict_del k d)).
Proof.
  induction d as [|[k' v'] rest IH]; cbn; [auto|].
  intros H. inversion H as [|? ? Hn Hr]; subst.
  destruct (str_eqb k' k); cbn; [exact Hr|].
  constructor; [|auto]. intros Hin. apply Hn.
  eapply dict_del_keys_incl, Hin.
Qed.

Lemma dict_get_del_same k d :
  NoDup (map fst d) -> dict_get k (dict_del k d) = None.
Proof.
  induction d as [|[k' v'] rest IH]; cbn; [reflexivity|].
  intros H. inversion H as [|? ? Hn Hr]; subst.
  destruct (str_eqb k' k) eqn:E; cbn.
  - apply str_eqb_eq in E. subst k'. apply dict_get_None, Hn.
  - rewrite E. auto.
Qed.

Lemma dict_get_del_other k k' d :
  k <> k' -> dict_get k' (dict_del k d) = dict_get k' d.
Proof.
  intros Hne. induction d as [|[k0 v0] rest IH]; cbn; [reflexivity|].
  destruct (str_eqb k0 k) eqn:E; cbn.
  - apply str_eqb_eq in E. subst k0.
    rewrite str_eqb_neq by assumption. reflexivity.
  - destruct (str_eqb k0 k'); auto.
Qed.

Lemma dict_del_length k v d :
  dict_get k d = Some v ->
  S (List.length (dict_del k d)) = List.length d.
Proof.
  induction d as [|[k0 v0] rest IH]; cbn; [discriminate|].
  destruct (str_eqb k0 k); cbn; auto.
Qed.

Lemma dict_del_Forall (P : pystr * V -> Prop) k d :
  Forall P d -> Forall P (dict_del k d).
Proof.
  induction 1 as [|[k' v'] rest Hx Hrest IH]; cbn; [constructor|].
  destruct (str_eqb k' k); [assumption|constructor; assumption].
Qed.
End DictKeys.

(** ** [AddressBook.add_record], [find] and [delete] *)

(** X1.  [add_record] touches one key only: [find] for a name with a
    different lower-cased form answers as before. *)
Theorem add_record_other_names (book : AddressBook) (r : record) (w : pystr) :
  lower w <> lower (record_name r) ->
  find w (add_record r book) = find w book.
Proof.
  intros H. unfold find, add_record.
  apply dict_get_set_other. congruence.
Qed.

Lemma add_record_other_names_witness :
  find (u "Bob") (add_record (record_init (u "John"))
                             [(u "bob", record_init (u "Bob"))])
  = Some (record_init (u "Bob")).
Proof.
  rewrite (add_record_other_names [(u "bob", record_init (u "Bob"))]
                                  (record_init (u "John")) (u "Bob")).
  - vm_compute. reflexivity.
  - vm_compute. discriminate.
Defined.

(** X2.  A record added under a name that is already a key, up to case,
    takes the place of the old one: the keys and their order stay, and
    [find] returns the new record. *)
Theorem add_record_overwrites (book : AddressBook) (r1 r2 : record) :
  lower (record_name r2) = lower (record_name r1) ->
  add_record r2 (add_record r1 book) = add_record r2 book
  /\ keys (add_record r2 (add_record r1 book)) = keys (add_record r1 book)
  /\ find (record_name r1) (add_record r2 (add_record r1 book)) = Some r2.
Proof.
  intros H. unfold add_record, keys, find. rewrite H. repeat split.
  - apply dict_set_set.
  - rewrite dict_set_keys.
    unfold dict_contains. rewrite dict_get_set_same. apply app_nil_r.
  - apply dict_get_set_same.
Qed.

Lemma add_record_overwrites_witness :
  let r1 := record_init (u "John") in
  let r2 := mkRecord (mkName (u "JOHN")) [mkPhone (u "1234567890")] None in
  add_record r2 (add_record r1 []) = [(u "john", r2)].
Proof.
  cbv zeta.
  rewrite (proj1 (add_record_overwrites []
                    (record_init (u "John"))
                    (mkRecord (mkName (u "JOHN")) [mkPhone (u "1234567890")]
                              None)
                    ltac:(vm_compute; reflexivity))).
  vm_compute. reflexivity.
Defined.

(** X3.  [add_record] keeps a well-formed book well-formed when the
    record is, and adds one entry exactly when the name is new. *)
Theorem add_record_book_ok (book : AddressBook) (r : record) :
  book_ok book -> record_ok r ->
  book_ok (add_record r book)
  /\ List.length (add_record r book)
     = (List.length book
        + match find (record_name r) book with Some _ => 0 | None => 1 end)%nat.
Proof.
  intros [Hk Hf] Hr. unfold add_record, find. split; [split|].
  - apply dict_set_NoDup, Hk.
  - apply dict_set_Forall; [exact Hf|]. split; [reflexivity|exact Hr].
  - rewrite dict_set_length. unfold dict_contains.
    destruct (dict_get _ book); reflexivity.
Qed.

Lemma book_ok_nil : book_ok [].
Proof. split; constructor. Qed.

Lemma record_ok_init (name : pystr) : record_ok (record_init name).
Proof. split; [constructor|discriminate]. Qed.

Lemma add_record_book_ok_witness :
  book_ok (add_record (record_init (u "John")) [])
  /\ List.length (add_record (record_init (u "John")) []) = 1%nat.
Proof.
  apply (add_record_book_ok [] (record_init (u "John")));
    [apply book_ok_nil|apply record_ok_init].
Defined.

(** X4.  [delete] of a name that is a key, up to case, answers with the
    name as it was typed and removes that entry only: [find] no longer
    knows the name, other names are found as before and the book has one
    entry less. *)
Theorem delete_known_name (book : AddressBook) (v : pystr) (r : record) :
  NoDup (keys book) ->
  find v book = Some r ->
  fst (delete v book) = u "Запис " ++ v ++ u " видалено."
  /\ find v (snd (delete v book)) = None
  /\ (forall w, lower w <> lower v ->
                find w (snd (delete v book)) = find w book)
  /\ S (List.length (snd (delete v book))) = List.length book
  /\ NoDup (keys (snd (delete v book))).
Proof.
  intros Hk Hf. unfold delete, find, dict_contains in *. rewrite Hf.
  cbn [fst snd]. repeat split.
  - apply dict_get_del_same, Hk.
  - intros w Hw. apply dict_get_del_other. congruence.
  - eapply dict_del_length, Hf.
  - apply dict_del_NoDup, Hk.
Qed.

Lemma delete_known_name_witness :
  find (u "JOHN")
       (snd (delete (u "JOHN") [(u "john", record_init (u "John"))]))
  = None.
Proof.
  apply (delete_known_name [(u "john", record_init (u "John"))]
                           (u "JOHN") (record_init (u "John"))).
  - repeat constructor. cbn. tauto.
  - vm_compute. reflexivity.
Defined.

(** X5.  [delete] of a name that is not a key leaves the book as it is
    and says so. *)
Theorem delete_unknown_name (book : AddressBook) (v : pystr) :
  find v book = None ->
  delete v book = (u "Запис не знайдено.", book).
Proof.
  intros Hf. unfold delete, find, dict_contains in *. rewrite Hf.
  reflexivity.
Qed.

Lemma delete_unknown_name_witness :
  delete (u "Bob") [(u "john", record_init (u "John"))]
  = (u "Запис не знайдено.", [(u "john", record_init (u "John"))]).
Proof.
  apply (delete_unknown_name [(u "john", record_init (u "John"))] (u "Bob")).
  vm_compute. reflexivity.
Defined.

(** ** [parse_input] *)

Lemma token_rev (cur : pystr) :
  cur <> [] ->
  forallb (fun c => negb (Unicode.isspace c)) cur = true ->
  token (rev cur) = true.
Proof.
  intros Hne Hs. unfold token. apply andb_true_intro. split.
  - destruct (rev cur) eqn:E; [|reflexivity].
    apply (f_equal (@rev N)) in E. rewrite rev_involutive in E.
    contradiction.
  - apply forallb_forall. intros c Hc. apply in_rev in Hc.
    rewrite forallb_forall in Hs. auto.
Qed.

Lemma split_from_tokens (s cur : pystr) :
  forallb (fun c => negb (Unicode.isspace c)) cur = true ->
  Forall (fun t => token t = true) (split_from cur s).
Proof.
  revert cur. induction s as [|c r IH]; intros cur Hcur; cbn [split_from].
  - destruct cur; [constructor|].
    repeat constructor. apply token_rev; [discriminate|assumption].
  - destruct (Unicode.isspace c) eqn:Ec.
    + destruct cur; [apply IH; reflexivity|].
      constructor; [apply token_rev; [discriminate|assumption]|].
      apply IH. reflexivity.
    + apply IH. cbn [forallb]. rewrite Ec. exact Hcur.
Qed.

Lemma split_nil_spaces (s : pystr) :
  split s = [] -> forallb Unicode.isspace s = true.
Proof.
  unfold split.
  assert (forall cur, split_from cur s = [] ->
                      cur = [] /\ forallb Unicode.isspace s = true) as H.
  { induction s as [|c r IH]; intros cur; cbn [split_from forallb].
    - destruct cur; [auto|discriminate].
    - destruct (Unicode.isspace c).
      + destruct cur; [|discriminate].
        intros H. destruct (IH [] H). auto.
      + intros H. destruct (IH _ H). discriminate. }
  intros E. apply (H [] E).
Qed.

Lemma tolower_full_nonempty (c : N) : Unicode.tolower_full c <> [].
Proof.
  unfold Unicode.tolower_full. destruct (c =? 304)%N; discriminate.
Qed.

Lemma lower_nil (s : pystr) : lower s = [] -> s = [].
Proof.
  unfold lower. destruct s as [|c r]; [reflexivity|]. cbn [lower_from].
  destruct (c =? 931)%N.
  - discriminate.
  - intros H. apply app_eq_nil in H as [H _].
    apply tolower_full_nonempty in H. destruct H.
Qed.

(** X6.  The arguments that [parse_input] hands to a handler are tokens:
    none is empty and none holds white space; and the command is the
    empty string exactly when the line is blank. *)
Theorem parse_input_arguments (line : pystr) :
  Forall (fun t => token t = true) (snd (parse_input line))
  /\ (fst (parse_input line) = [] <->
      forallb Unicode.isspace line = true).
Proof.
  unfold parse_input. rewrite split_strip.
  pose proof (split_from_tokens line [] eq_refl) as Ht.
  fold (split line) in Ht.
  destruct (split line) as [|tok args] eqn:E; cbn [fst snd].
  - split; [constructor|]. split; [|reflexivity].
    intros _. apply split_nil_spaces, E.
  - inversion Ht as [|? ? Htok Hargs]; subst. split; [exact Hargs|].
    split.
    + intros H. apply lower_nil in H. subst tok. discriminate.
    + intros H. rewrite (split_spaces line H) in E. discriminate.
Qed.

Lemma split_from_token (t s cur : pystr) :
  forallb (fun c => negb (Unicode.isspace c)) t = true ->
  split_from cur (t ++ s) = split_from (rev t ++ cur) s.
Proof.
  revert cur. induction t as [|c t IH]; intros cur H; [reflexivity|].
  cbn [forallb] in H. apply andb_prop in H as [Hc Ht].
  apply negb_true_iff in Hc.
  cbn [app split_from rev]. rewrite Hc, IH by assumption.
  rewrite <- app_assoc. reflexivity.
Qed.

Lemma split_join_tokens (toks : list pystr) :
  Forall (fun t => token t = true) toks ->
  split (join [32%N] toks) = toks.
Proof.
  unfold split. induction 1 as [|t rest Ht Hrest IH]; [reflexivity|].
  unfold token in Ht. apply andb_prop in Ht as [Hne Hs].
  destruct rest as [|t' rest'].
  - cbn [join]. rewrite <- (app_nil_r t) at 1.
    rewrite split_from_token by assumption. cbn [split_from].
    rewrite app_nil_r, rev_involutive.
    destruct (rev t) eqn:E; [|reflexivity].
    apply (f_equal (@rev N)) in E. rewrite rev_involutive in E.
    subst t. discriminate.
  - change (join [32%N] (t :: t' :: rest'))
      with (t ++ [32%N] ++ join [32%N] (t' :: rest')).
    rewrite split_from_token by assumption.
    cbn [app split_from].
    change (Unicode.isspace 32) with true. cbv iota.
    rewrite app_nil_r, rev_involutive, IH.
    destruct (rev t) eqn:E; [|reflexivity].
    apply (f_equal (@rev N)) in E. rewrite rev_involutive in E.
    subst t. discriminate.
Qed.

(** X7.  A command line written as tokens separated by one space is read
    back as those tokens, the first one lower-cased. *)
Theorem parse_input_join (command : pystr) (args : list pystr) :
  Forall (fun t => token t = true) (command :: args) ->
  parse_input (join (u " ") (command :: args)) = (lower command, args).
Proof.
  intros H. apply parse_input_tokens.
  change (u " ") with [32%N]. apply split_join_tokens, H.
Qed.

Lemma parse_input_join_witness :
  parse_input (u "ADD John 1234567890")
  = (u "add", [u "John"; u "1234567890"]).
Proof.
  assert (u "ADD John 1234567890"
          = join (u " ") [u "ADD"; u "John"; u "1234567890"]) as ->
      by (vm_compute; reflexivity).
  rewrite (parse_input_join (u "ADD") [u "John"; u "1234567890"]).
  - vm_compute. reflexivity.
  - repeat constructor; vm_compute; reflexivity.
Defined.

(** ** What the commands do to the book *)

Lemma input_error_book (func : list pystr -> M pystr) (args : list pystr)
      (book : AddressBook) :
  snd (input_error func args book) = snd (func args book).
Proof.
  unfold input_error. destruct (func args book) as [[text|[]] book'];
    reflexivity.
Qed.

Lemma step_book_print_result (r : result pystr * AddressBook) :
  step_book (print_result r) = snd r.
Proof. destruct r as [[text|e] book']; reflexivity. Qed.

Lemma raw_change_contact_book (args : list pystr) (book : AddressBook) :
  snd (raw_change_contact args book) = book.
Proof.
  unfold raw_change_contact.
  destruct args as [|name [|old_phone [|new_phone rest]]]; try reflexivity.
  unfold bind, book_find, raise. destruct (find name book); [|reflexivity].
  destruct (record_getattr "edit_phone"); reflexivity.
Qed.

Lemma raw_phone_book (args : list pystr) (book : AddressBook) :
  snd (raw_phone args book) = book.
Proof.
  unfold raw_phone. destruct args as [|name rest]; [reflexivity|].
  unfold bind, book_find, raise, ret.
  destruct (find name book) as [r|]; [|reflexivity].
  destruct (phones r); reflexivity.
Qed.

Lemma raw_show_all_book (env : Env) (args : list pystr) (book : AddressBook) :
  snd (raw_show_all env args book) = book.
Proof. unfold raw_show_all. destruct book; reflexivity. Qed.

Lemma raw_show_birthday_book (env : Env) (args : list pystr)
      (book : AddressBook) :
  snd (raw_show_birthday env args book) = book.
Proof.
  unfold raw_show_birthday. destruct args as [|name rest]; [reflexivity|].
  unfold bind, book_find, raise, ret.
  destruct (find name book) as [r|]; [|reflexivity].
  destruct (birthday r); reflexivity.
Qed.

Lemma raw_birthdays_book (env : Env) (args : list pystr) (book : AddressBook) :
  snd (raw_birthdays env args book) = book.
Proof.
  unfold raw_birthdays.
  destruct (get_upcoming_birthdays env 7 book) as [[|? ?]|e]; reflexivity.
Qed.

(** An iteration leaves the book as it was unless the command is [add]
    or [add-birthday]; then the book is the one the body of the handler
    leaves. *)
Lemma main_step_cases (env : Env) (book : AddressBook) (line : pystr) :
  step_book (main_step env book line) = book
  \/ (fst (parse_input line) = u "add"
      /\ step_book (main_step env book line)
         = snd (raw_add_contact (snd (parse_input line)) book))
  \/ (fst (parse_input line) = u "add-birthday"
      /\ step_book (main_step env book line)
         = snd (raw_add_birthday env (snd (parse_input line)) book)).
Proof.
  unfold main_step. destruct (parse_input line) as [command args].
  cbn [fst snd].
  destruct (str_eqb command (u "exit") || str_eqb command (u "close"));
    [left; reflexivity|].
  destruct (str_eqb command (u "hello")); [left; reflexivity|].
  destruct (str_eqb command (u "add")) eqn:Ea.
  { right. left. apply str_eqb_eq in Ea. split; [exact Ea|].
    rewrite step_book_print_result. apply input_error_book. }
  destruct (str_eqb command (u "change")).
  { left. rewrite step_book_print_result. unfold change_contact.
    rewrite input_error_book. apply raw_change_contact_book. }
  destruct (str_eqb command (u "phone")).
  { left. rewrite step_book_print_result. unfold phone.
    rewrite input_error_book. apply raw_phone_book. }
  destruct (str_eqb command (u "all")).
  { left. rewrite step_book_print_result. unfold show_all.
    rewrite input_error_book. apply raw_show_all_book. }
  destruct (str_eqb command (u "add-birthday")) eqn:Eb.
  { right. right. apply str_eqb_eq in Eb. split; [exact Eb|].
    rewrite step_book_print_result. apply input_error_book. }
  destruct (str_eqb command (u "show-birthday")).
  { left. rewrite step_book_print_result. unfold show_birthday.
    rewrite input_error_book. apply raw_show_birthday_book. }
  destruct (str_eqb command (u "birthdays")).
  { left. rewrite step_book_print_result. unfold birthdays.
    rewrite input_error_book. apply raw_birthdays_book. }
  left. reflexivity.
Qed.

(** X8.  Only [add] and [add-birthday] can change the book: after any
    other line - a query, [change], [exit], an unknown command - the book
    is the one before, whatever is printed and even when the process
    ends. *)
Theorem only_add_commands_change_book
        (env : Env) (book : AddressBook) (line : pystr) :
  fst (parse_input line) <> u "add" ->
  fst (parse_input line) <> u "add-birthday" ->
  step_book (main_step env book line) = book.
Proof.
  intros Ha Hb.
  destruct (main_step_cases env book line) as [H|[[H _]|[H _]]];
    [exact H|contradiction|contradiction].
Qed.

Lemma only_add_commands_change_book_witness :
  let book := [(u "john", record_init (u "John"))] in
  step_book (main_step (mkEnv (mkdate 2024 1 1) false) book
                       (u "change John 1234567890 5551234567"))
  = book.
Proof.
  apply (only_add_commands_change_book
           (mkEnv (mkdate 2024 1 1) false)
           [(u "john", record_init (u "John"))]
           (u "change John 1234567890 5551234567"));
    vm_compute; discriminate.
Defined.

Lemma Birthday_init_valid (s : pystr) (b : Birthday) :
  Birthday_init s = Ok b -> valid (Birthday_value b) = true.
Proof.
  unfold Birthday_init.
  destruct (strptime_dmY s) as [dt|] eqn:E; [|discriminate].
  intros H; inversion H; subst b. cbn [Birthday_value].
  destruct (strptime_dmY_some s dt E). assumption.
Qed.

Lemma Phone_init_valid (s : pystr) (p : Phone) :
  Phone_init s = Ok p -> valid_phone p.
Proof.
  rewrite Phone_init_eq. unfold valid_phone.
  destruct (ten_isdigit_characters s) eqn:E; [|discriminate].
  intros H; inversion H; subst p. exact E.
Qed.

Lemma grows_refl (r : record) (name : pystr) : grows (Some r) name r.
Proof.
  repeat split; [|left; reflexivity].
  exists []. rewrite app_nil_r. auto.
Qed.

Lemma raw_add_contact_book_step (args : list pystr) (book : AddressBook) :
  book_step book (snd (raw_add_contact args book)).
Proof.
  unfold raw_add_contact.
  destruct args as [|name [|phone rest]]; try apply book_step_same.
  unfold bind, book_find, book_add_record, ret, mutate, returning_none,
    record_add_phone.
  destruct (find name book) as [r|] eqn:Ef; cbn [fst snd].
  - destruct (truthy phone); [|apply book_step_same].
    destruct (Phone_init phone) as [p|e] eqn:Ep; [|apply book_step_same].
    cbn [snd]. apply book_step_store. rewrite Ef.
    repeat split; [|left; reflexivity].
    exists [p]. split; [reflexivity|].
    repeat constructor. eapply Phone_init_valid, Ep.
  - assert (grows (find name book) name (record_init name)) as Hnew.
    { rewrite Ef. repeat split; [|left; reflexivity].
      exists []. auto. }
    destruct (truthy phone);
      [|apply (book_step_store book name (record_init name) Hnew)].
    destruct (Phone_init phone) as [p|e] eqn:Ep;
      [|apply (book_step_store book name (record_init name) Hnew)].
    cbn [snd]. unfold add_record. rewrite dict_set_set.
    apply (book_step_store book name). rewrite Ef.
    repeat split; [|left; reflexivity].
    exists [p]. split; [reflexivity|].
    repeat constructor. eapply Phone_init_valid, Ep.
Qed.

Lemma raw_add_birthday_book_step (env : Env) (args : list pystr)
      (book : AddressBook) :
  book_step book (snd (raw_add_birthday env args book)).
Proof.
  unfold raw_add_birthday.
  destruct args as [|name [|birthday_str rest]]; try apply book_step_same.
  unfold bind, book_find, raise, mutate, record_add_birthday.
  destruct (find name book) as [r|] eqn:Ef; [|apply book_step_same].
  destruct (Birthday_init birthday_str) as [b|e] eqn:Eb;
    [|apply book_step_same].
  cbn [snd]. apply book_step_store. rewrite Ef.
  repeat split.
  - exists []. rewrite app_nil_r. auto.
  - right. exists b. split; [reflexivity|].
    eapply Birthday_init_valid, Eb.
Qed.

(** Every iteration of the loop is a step of the book. *)
Lemma main_step_book_step (env : Env) (book : AddressBook) (line : pystr) :
  book_step book (step_book (main_step env book line)).
Proof.
  destruct (main_step_cases env book line) as [H|[[_ H]|[_ H]]];
    rewrite H.
  - apply book_step_same.
  - apply raw_add_contact_book_step.
  - apply raw_add_birthday_book_step.
Qed.

(** ** Invariants of a session *)

Lemma book_step_ok (book book' : AddressBook) :
  book_step book book' -> book_ok book -> book_ok book'.
Proof.
  intros [|name r' (Hn & (extra & Hp & He) & Hb)] [Hk Hf]; [split; assumption|].
  split; [apply dict_set_NoDup, Hk|].
  apply dict_set_Forall; [exact Hf|].
  unfold entry_ok. cbn [fst snd]. rewrite Hn.
  unfold find in *. destruct (dict_get (lower name) book) as [r|] eqn:Ef.
  - apply dict_get_In in Ef. rewrite Forall_forall in Hf.
    destruct (Hf _ Ef) as [Hkey [Hph Hbd]]. cbn [fst snd] in *.
    split; [exact Hkey|]. split.
    + rewrite Hp. apply Forall_app. auto.
    + intros b E. destruct Hb as [Hb|(b' & Hb & Hv)].
      * apply Hbd. congruence.
      * congruence.
  - split; [reflexivity|]. split.
    + rewrite Hp. apply Forall_app. split; [constructor|exact He].
    + intros b E. destruct Hb as [Hb|(b' & Hb & Hv)].
      * rewrite Hb in E. discriminate.
      * congruence.
Qed.

Lemma record_grew_refl (r : record) : record_grew r r.
Proof.
  repeat split; [|auto]. exists []. rewrite app_nil_r. reflexivity.
Qed.

Lemma book_grew_refl (book : AddressBook) : book_grew book book.
Proof.
  split; [exists []; rewrite app_nil_r; reflexivity|].
  intros k r H. exists r. split; [exact H|apply record_grew_refl].
Qed.

Lemma book_grew_trans (a b c : AddressBook) :
  book_grew a b -> book_grew b c -> book_grew a c.
Proof.
  intros [[n1 K1] R1] [[n2 K2] R2]. split.
  - exists (n1 ++ n2). rewrite K2, K1, app_assoc. reflexivity.
  - intros k r H.
    destruct (R1 k r H) as (r1 & H1 & G1 & [e1 P1] & B1).
    destruct (R2 k r1 H1) as (r2 & H2 & G2 & [e2 P2] & B2).
    exists r2. split; [exact H2|]. repeat split.
    + congruence.
    + exists (e1 ++ e2). rewrite P2, P1, app_assoc. reflexivity.
    + auto.
Qed.

Lemma book_step_grew (book book' : AddressBook) :
  book_step book book' -> book_grew book book'.
Proof.
  intros [|name r' (Hn & (extra & Hp & He) & Hb)]; [apply book_grew_refl|].
  split.
  - unfold keys. rewrite dict_set_keys. eauto.
  - intros k r H.
    destruct (list_eq_dec N.eq_dec (lower name) k) as [<-|Hne].
    + exists r'. split; [apply dict_get_set_same|].
      unfold find in *. rewrite H in *. repeat split.
      * exact Hn.
      * eauto.
      * intros Hsome. destruct Hb as [Hb|(b & Hb & _)]; congruence.
    + exists r. split; [|apply record_grew_refl].
      rewrite dict_get_set_other by assumption. exact H.
Qed.

(** A property of the book that every iteration keeps holds of the book
    a whole session leaves, however the session ends. *)
Lemma main_loop_keeps (P : AddressBook -> Prop) (env : Env) :
  (forall book line, P book -> P (step_book (main_step env book line))) ->
  forall inputs book,
    P book -> P (step_book (snd (main_loop env book inputs))).
Proof.
  intros Hstep. induction inputs as [|line rest IH]; intros book HP;
    [exact HP|].
  cbn [main_loop]. specialize (Hstep book line HP).
  destruct (main_step env book line) as [printed book'| |]; cbn [step_book snd] in *;
    try exact Hstep.
  specialize (IH book' Hstep).
  destruct (main_loop env book' rest). exact IH.
Qed.

(** X9.  A session keeps the book well-formed: from a book whose keys
    are distinct and are the lower-cased names of records that hold only
    checked phones and real dates - the empty book is one - any sequence
    of lines leaves such a book, whether the session is still running,
    has exited or has crashed. *)
Theorem session_keeps_book_ok
        (env : Env) (book : AddressBook) (inputs : list pystr) :
  book_ok book ->
  book_ok (step_book (snd (main_loop env book inputs))).
Proof.
  apply (main_loop_keeps book_ok env).
  intros b line Hb. eapply book_step_ok; [|exact Hb].
  apply main_step_book_step.
Qed.

Lemma session_keeps_book_ok_witness :
  book_ok
    (step_book
       (snd (main_loop (mkEnv (mkdate 2024 1 1) false) []
               (map u ["add John 1234567890"; "add john 12";
                       "add-birthday John 1.2.1990"]%string)))).
Proof.
  apply (session_keeps_book_ok (mkEnv (mkdate 2024 1 1) false) []).
  apply book_ok_nil.
Defined.

(** X10.  A session never loses anything: the keys of the book it starts
    from stay, in their order, and each keeps a record with the same
    name, the same phones (possibly followed by more) and a birthday if
    it had one.  No line deletes or renames a contact or removes a
    phone. *)
Theorem session_only_grows
        (env : Env) (book : AddressBook) (inputs : list pystr) :
  book_grew book (step_book (snd (main_loop env book inputs))).
Proof.
  apply (main_loop_keeps (book_grew book) env); [|apply book_grew_refl].
  intros b line Hb. eapply book_grew_trans; [exact Hb|].
  apply book_step_grew, main_step_book_step.
Qed.

(** ** [add], [phone], [add-birthday] and [show-birthday] *)

Lemma ten_isdigit_truthy (s : pystr) :
  ten_isdigit_characters s = true -> truthy s = true.
Proof.
  unfold ten_isdigit_characters. destruct s; [discriminate|reflexivity].
Qed.

Lemma add_contact_valid
      (book : AddressBook) (nm ph : pystr) (rest : list pystr) :
  ten_isdigit_characters ph = true ->
  add_contact (nm :: ph :: rest) book
  = match find nm book with
    | Some r =>
      (Ok (u "Контакт оновлено."),
       dict_set (lower nm)
                (mkRecord (name r) (phones r ++ [mkPhone ph]) (birthday r))
                book)
    | None =>
      (Ok (u "Контакт додано."),
       dict_set (lower nm) (mkRecord (mkName nm) [mkPhone ph] None) book)
    end.
Proof.
  intros Hv. unfold add_contact.
  destruct (find nm book) as [r|] eqn:Ef; apply input_error_Ok;
    unfold raw_add_contact, bind, book_find, book_add_record, ret, mutate,
      returning_none, record_add_phone;
    rewrite Ef, (ten_isdigit_truthy ph Hv), Phone_init_eq, Hv;
    cbn [fst snd]; [reflexivity|].
  unfold add_record. rewrite dict_set_set. reflexivity.
Qed.

(** X11.  [add] with a phone that passes the check appends it to the
    phones of the contact found under the name, or to those of a new
    contact when the name is unknown; it answers "updated" or "added"
    accordingly, and no other contact is touched. *)
Theorem add_contact_appends_phone
        (book : AddressBook) (nm ph : pystr) (rest : list pystr) :
  ten_isdigit_characters ph = true ->
  let r0 := match find nm book with
            | Some r => r
            | None => record_init nm
            end in
  let r' := mkRecord (name r0) (phones r0 ++ [mkPhone ph]) (birthday r0) in
  fst (add_contact (nm :: ph :: rest) book)
  = Ok (match find nm book with
        | Some _ => u "Контакт оновлено."
        | None => u "Контакт додано."
        end)
  /\ find nm (snd (add_contact (nm :: ph :: rest) book)) = Some r'
  /\ forall w, lower w <> lower nm ->
               find w (snd (add_contact (nm :: ph :: rest) book))
               = find w book.
Proof.
  intros Hv. cbv zeta. rewrite (add_contact_valid book nm ph rest Hv).
  destruct (find nm book) as [r|]; cbn [fst snd]; unfold find;
    (split; [reflexivity|]);
    (split; [apply dict_get_set_same|]);
    intros w Hw; apply dict_get_set_other; congruence.
Qed.

Lemma add_contact_appends_phone_witness :
  find (u "John")
       (snd (add_contact [u "John"; u "0987654321"]
               [(u "john",
                 mkRecord (mkName (u "John")) [mkPhone (u "1234567890")]
                          None)]))
  = Some (mkRecord (mkName (u "John"))
                   [mkPhone (u "1234567890"); mkPhone (u "0987654321")]
                   None).
Proof.
  destruct (add_contact_appends_phone
              [(u "john",
                mkRecord (mkName (u "John")) [mkPhone (u "1234567890")] None)]
              (u "John") (u "0987654321") [])
    as (_ & H & _); [vm_compute; reflexivity|].
  rewrite H. vm_compute. reflexivity.
Defined.

(** X12.  After [add] with a checked phone, [phone] for the name, in any
    spelling with the same lower-cased form, lists the phones the contact
    had before followed by the new one, separated by "; ". *)
Theorem add_then_phone
        (book : AddressBook) (nm ph v : pystr) (rest rest' : list pystr) :
  ten_isdigit_characters ph = true ->
  lower v = lower nm ->
  let before := match find nm book with
                | Some r => map Phone_value (phones r)
                | None => []
                end in
  let book' := snd (add_contact (nm :: ph :: rest) book) in
  phone (v :: rest') book' = (Ok (join (u "; ") (before ++ [ph])), book').
Proof.
  intros Hv Hl. cbv zeta. rewrite (add_contact_valid book nm ph rest Hv).
  unfold phone. apply input_error_Ok.
  unfold raw_phone, bind, book_find, ret, find. rewrite Hl.
  destruct (dict_get (lower nm) book) as [r|]; cbn [snd];
    rewrite dict_get_set_same; cbn [phones].
  - change [ph] with (map Phone_value [mkPhone ph]).
    rewrite <- (map_app Phone_value (phones r) [mkPhone ph]).
    destruct (phones r ++ [mkPhone ph]) eqn:E; [|reflexivity].
    apply app_eq_nil in E as [_ E]. discriminate.
  - reflexivity.
Qed.

Lemma add_then_phone_witness :
  phone [u "JOHN"] (snd (add_contact [u "John"; u "1234567890"] []))
  = (Ok (u "1234567890"), [(u "john",
                            mkRecord (mkName (u "John"))
                                     [mkPhone (u "1234567890")] None)]).
Proof.
  rewrite (add_then_phone [] (u "John") (u "1234567890") (u "JOHN") [] []);
    vm_compute; reflexivity.
Defined.

Lemma add_birthday_success
      (env : Env) (book : AddressBook) (nm s : pystr) (rest : list pystr)
      (r : record) (b : Birthday) :
  find nm book = Some r ->
  Birthday_init s = Ok b ->
  add_birthday env (nm :: s :: rest) book
  = (Ok (u "День народження для " ++ record_name r
         ++ u " встановлено на "
         ++ strftime_dmY (pads_year env) (Birthday_value b) ++ u "."),
     dict_set (lower nm) (mkRecord (name r) (phones r) (Some b)) book).
Proof.
  intros Hf Hb. apply input_error_Ok.
  unfold raw_add_birthday, bind, book_find, mutate, record_add_birthday.
  rewrite Hf, Hb. reflexivity.
Qed.

(** X13.  [add-birthday] changes the book only when it succeeds: for an
    unknown name it answers that the contact is not found, and for a
    date that [Birthday] rejects it answers with the validation message;
    in both cases the book is untouched and, unlike [add], no contact is
    created.  On success only the birthday of the contact changes. *)
Theorem add_birthday_all_or_nothing
        (env : Env) (book : AddressBook) (nm s : pystr) (rest : list pystr) :
  (find nm book = None ->
   add_birthday env (nm :: s :: rest) book = (Ok (u "Contact not found."), book))
  /\ (forall r,
         find nm book = Some r ->
         is_ok (Birthday_init s) = false ->
         add_birthday env (nm :: s :: rest) book
         = (Ok (u "Invalid date format. Use DD.MM.YYYY"), book))
  /\ (forall r b,
         find nm book = Some r ->
         Birthday_init s = Ok b ->
         add_birthday env (nm :: s :: rest) book
         = (Ok (u "День народження для " ++ record_name r
                ++ u " встановлено на "
                ++ strftime_dmY (pads_year env) (Birthday_value b) ++ u "."),
            dict_set (lower nm) (mkRecord (name r) (phones r) (Some b)) book)).
Proof.
  unfold add_birthday. repeat split.
  - intros Hf. apply input_error_KeyError.
    unfold raw_add_birthday, bind, book_find. rewrite Hf. reflexivity.
  - intros r Hf Hbad.
    apply input_error_ValueError; [|vm_compute; reflexivity].
    unfold raw_add_birthday, bind, book_find, mutate, record_add_birthday.
    rewrite Hf. unfold Birthday_init in *.
    destruct (strptime_dmY s); [discriminate|reflexivity].
  - intros r b Hf Hb. apply add_birthday_success; assumption.
Qed.

Lemma add_birthday_all_or_nothing_witness :
  let env := mkEnv (mkdate 2024 1 1) false in
  let book := [(u "john", record_init (u "John"))] in
  add_birthday env [u "Bob"; u "15.06.1990"] book
  = (Ok (u "Contact not found."), book)
  /\ add_birthday env [u "John"; u "31.02.1990"] book
     = (Ok (u "Invalid date format. Use DD.MM.YYYY"), book)
  /\ snd (add_birthday env [u "John"; u "15.06.1990"] book)
     = [(u "john", mkRecord (mkName (u "John")) []
                            (Some (mkBirthday (mkdate 1990 6 15))))].
Proof.
  cbv zeta. split; [|split].
  - apply (add_birthday_all_or_nothing
             (mkEnv (mkdate 2024 1 1) false)
             [(u "john", record_init (u "John"))] (u "Bob") (u "15.06.1990") []).
    vm_compute. reflexivity.
  - apply (proj1 (proj2 (add_birthday_all_or_nothing
             (mkEnv (mkdate 2024 1 1) false)
             [(u "john", record_init (u "John"))] (u "John")
             (u "31.02.1990") [])) (record_init (u "John")));
      vm_compute; reflexivity.
  - rewrite (proj2 (proj2 (add_birthday_all_or_nothing
             (mkEnv (mkdate 2024 1 1) false)
             [(u "john", record_init (u "John"))] (u "John")
             (u "15.06.1990") [])) (record_init (u "John"))
             (mkBirthday (mkdate 1990 6 15)));
      vm_compute; reflexivity.
Defined.

(** X14.  After [add-birthday] with a date in the strict format
    DD.MM.YYYY, [show-birthday] for the name, in any spelling with the
    same lower-cased form, shows the name as it was first entered and
    the date as it was typed (for a year below 1000, where [strftime]
    pads the year). *)
Theorem add_birthday_then_show_birthday
        (env : Env) (book : AddressBook) (nm s v : pystr)
        (rest rest' : list pystr) (r : record) (dt : date) :
  find nm book = Some r ->
  spec_matches_DD_MM_YYYY s = true ->
  spec_denoted_date s = Some dt ->
  pads_year env = true \/ (1000 <= year dt)%Z ->
  lower v = lower nm ->
  let book' := snd (add_birthday env (nm :: s :: rest) book) in
  show_birthday env (v :: rest') book'
  = (Ok (record_name r ++ u "'s birthday: " ++ s), book').
Proof.
  intros Hf Hm Hd Hpad Hl. cbv zeta.
  assert (Birthday_init s = Ok (mkBirthday dt)) as Hb.
  { unfold Birthday_init. rewrite (strptime_dmY_strict s dt Hm Hd).
    reflexivity. }
  rewrite (add_birthday_success env book nm s rest r (mkBirthday dt) Hf Hb).
  cbn [snd]. unfold show_birthday. apply input_error_Ok.
  unfold raw_show_birthday, bind, book_find, ret, find. rewrite Hl.
  rewrite dict_get_set_same. cbn [birthday Birthday_value].
  rewrite (strftime_dmY_strict (pads_year env) s dt Hm Hd Hpad).
  reflexivity.
Qed.

Lemma add_birthday_then_show_birthday_witness :
  let env := mkEnv (mkdate 2024 1 1) false in
  let book := [(u "john", record_init (u "John"))] in
  fst (show_birthday env [u "JOHN"]
         (snd (add_birthday env [u "john"; u "15.06.1990"] book)))
  = Ok (u "John's birthday: 15.06.1990").
Proof.
  cbv zeta.
  rewrite (add_birthday_then_show_birthday
             (mkEnv (mkdate 2024 1 1) false)
             [(u "john", record_init (u "John"))]
             (u "john") (u "15.06.1990") (u "JOHN") [] []
             (record_init (u "John")) (mkdate 1990 6 15));
    try (vm_compute; reflexivity).
  right. vm_compute. discriminate.
Defined.

(** ** Calendar arithmetic *)

Lemma valid_ymd_inv (y m d : Z) :
  valid_ymd y m d = true ->
  (1 <= y <= 9999 /\ 1 <= m <= 12 /\ 1 <= d <= days_in_month y m)%Z.
Proof.
  unfold valid_ymd, MINYEAR, MAXYEAR. intros H.
  repeat (apply andb_prop in H as [H ?]).
  repeat match goal with
         | E : (_ <=? _)%Z = true |- _ => apply Z.leb_le in E
         end.
  lia.
Qed.

Lemma valid_ymd_intro (y m d : Z) :
  (1 <= y <= 9999 /\ 1 <= m <= 12 /\ 1 <= d <= days_in_month y m)%Z ->
  valid_ymd y m d = true.
Proof.
  unfold valid_ymd, MINYEAR, MAXYEAR. intros (Hy & Hm & Hd).
  repeat (apply andb_true_intro; split); apply Z.leb_le; lia.
Qed.

Lemma days_before_year_succ (y : Z) :
  days_before_year (y + 1)
  = (days_before_year y + 365 + (if is_leap y then 1 else 0))%Z.
Proof.
  unfold days_before_year, is_leap. replace (y + 1 - 1)%Z with y by lia.
  cbv zeta.
  destruct (Z.eqb_spec (y mod 4) 0), (Z.eqb_spec (y mod 100) 0),
    (Z.eqb_spec (y mod 400) 0); cbn [negb andb orb];
    Z.div_mod_to_equations; lia.
Qed.

Lemma leap_years_apart (y : Z) : is_leap y = true -> is_leap (y + 1) = false.
Proof.
  unfold is_leap. intros H. apply andb_prop in H as [H _].
  apply Z.eqb_eq in H.
  destruct (Z.eqb_spec ((y + 1) mod 4) 0) as [E|E]; [|reflexivity].
  exfalso. Z.div_mod_to_equations. lia.
Qed.

Ltac month_cases m :=
  let H := fresh "Hm" in
  assert (m = 1 \/ m = 2 \/ m = 3 \/ m = 4 \/ m = 5 \/ m = 6 \/ m = 7
          \/ m = 8 \/ m = 9 \/ m = 10 \/ m = 11 \/ m = 12)%Z as H by lia;
  repeat (destruct H as [H|H]; [subst m|]); [..|subst m].

Ltac month_simpl :=
  cbn [andb Z.ltb Z.compare Pos.compare Pos.compare_cont] in *.

(** The day of the year of a date lies between 1 and the length of the
    year, and grows with the date. *)
Lemma yday_range (y m d : Z) :
  (1 <= m <= 12 -> 1 <= d <= days_in_month y m ->
   1 <= yday y m d <= 365 + (if is_leap y then 1 else 0))%Z.
Proof.
  intros Hm Hd. unfold yday, days_before_month, days_in_month in *.
  month_cases m; destruct (is_leap y); month_simpl; lia.
Qed.

Lemma yday_lt (y m1 d1 m2 d2 : Z) :
  (1 <= m1 <= 12 -> 1 <= d1 <= days_in_month y m1 ->
   1 <= m2 <= 12 -> 1 <= d2 <= days_in_month y m2 ->
   m1 < m2 \/ (m1 = m2 /\ d1 < d2) ->
   yday y m1 d1 < yday y m2 d2)%Z.
Proof.
  intros Hm1 Hd1 Hm2 Hd2 [Hlt|[-> Hlt]]; [|unfold yday; lia].
  unfold yday, days_before_month, days_in_month in *.
  month_cases m1; month_cases m2; try lia;
    destruct (is_leap y); month_simpl; lia.
Qed.

Lemma yday_next_year (y m d : Z) :
  (1 <= m <= 12 ->
   yday (y + 1) m d + (if is_leap y then 1 else 0) <= yday y m d + 1)%Z.
Proof.
  intros Hm. unfold yday, days_before_month.
  destruct (is_leap y) eqn:E.
  - rewrite (leap_years_apart y E).
    destruct (2 <? m)%Z; cbn [andb]; lia.
  - destruct ((2 <? m)%Z && is_leap (y + 1)); cbn [andb];
      destruct (2 <? m)%Z; cbn [andb]; lia.
Qed.

Lemma date_ltb_spec (a b : date) :
  date_ltb a b = true <->
  (year a < year b
   \/ (year a = year b
       /\ (month a < month b \/ (month a = month b /\ day a < day b))))%Z.
Proof.
  unfold date_ltb.
  rewrite !orb_true_iff, !andb_true_iff, !orb_true_iff, !andb_true_iff,
    !Z.ltb_lt, !Z.eqb_eq.
  tauto.
Qed.

(** A day that is not the 29th of February exists in every year. *)
Lemma ordinary_day_every_year (b : date) (y : Z) :
  valid b = true -> leap_day b = false -> (1 <= y <= 9999)%Z ->
  valid_ymd y (month b) (day b) = true.
Proof.
  unfold valid, leap_day. intros Hv Hl Hy.
  apply valid_ymd_inv in Hv as (_ & Hm & Hd).
  apply valid_ymd_intro. split; [exact Hy|]. split; [exact Hm|].
  apply andb_false_iff in Hl.
  rewrite !Z.eqb_neq in Hl.
  unfold days_in_month in *.
  destruct b as [by_ m d]. cbn [month day year] in *.
  month_cases m; try lia.
  destruct (is_leap by_), (is_leap y); lia.
Qed.

(** The days from [today] to the next occurrence of a day that exists
    in this year and the next. *)
Lemma next_birthday_days (today b : date) :
  valid today = true ->
  valid_ymd (year today) (month b) (day b) = true ->
  valid_ymd (year today + 1) (month b) (day b) = true ->
  exists next,
    next_birthday today b = Ok next
    /\ (0 <= sub_days next today <= 365)%Z
    /\ (sub_days next today = 0%Z <->
        month b = month today /\ day b = day today).
Proof.
  intros Ht Hv Hv'.
  destruct today as [ty tm td], b as [by_ m d].
  unfold valid in Ht. cbn [year month day] in *.
  pose proof (valid_ymd_inv _ _ _ Ht) as (Hty & Htm & Htd).
  pose proof (valid_ymd_inv _ _ _ Hv) as (_ & Hm & Hd).
  pose proof (valid_ymd_inv _ _ _ Hv') as (_ & _ & Hd').
  pose proof (yday_range ty tm td Htm Htd) as Rt.
  pose proof (yday_range ty m d Hm Hd) as Rb.
  pose proof (yday_range (ty + 1) m d Hm Hd') as Rb'.
  pose proof (yday_next_year ty m d Hm) as Hn.
  pose proof (days_before_year_succ ty) as Hs.
  destruct (date_ltb (mkdate ty m d) (mkdate ty tm td)) eqn:E.
  - exists (mkdate (ty + 1) m d). split.
    + apply (next_birthday_next_year (mkdate ty tm td) (mkdate by_ m d));
        assumption.
    + apply date_ltb_spec in E. cbn [year month day] in E.
      assert (yday ty m d < yday ty tm td)%Z
        by (apply yday_lt; try assumption; lia).
      unfold sub_days, toordinal, ymd_to_ord. cbn [year month day].
      rewrite Hs. unfold yday in *.
      destruct (is_leap ty), (is_leap (ty + 1));
        (split; [lia|]); (split; [lia|]); intros [-> ->]; lia.
  - exists (mkdate ty m d). split.
    + apply (next_birthday_this_year (mkdate ty tm td) (mkdate by_ m d));
        assumption.
    + assert (~ (m < tm \/ (m = tm /\ d < td)))%Z as Hge.
      { intros H. apply Bool.not_true_iff_false in E. apply E.
        apply date_ltb_spec. cbn [year month day]. right. auto. }
      unfold sub_days, toordinal, ymd_to_ord. cbn [year month day].
      assert (m = tm /\ d = td \/ yday ty tm td < yday ty m d)%Z as [[-> ->]|Hlt].
      { destruct (Z.eq_dec m tm) as [->|]; [destruct (Z.eq_dec d td)|].
        - auto.
        - right. apply yday_lt; try assumption; lia.
        - right. apply yday_lt; try assumption; lia. }
      * split; [lia|]. split; intros; [auto|lia].
      * unfold yday in *.
        destruct (is_leap ty);
          (split; [lia|]); (split; [lia|]); intros [-> ->]; lia.
Qed.

(** ** Days to a birthday that is not on the 29th of February *)

(** X15.  For a birthday on any day but the 29th of February, and as
    long as the current year is not the last one of the calendar,
    [days_to_birthday] returns a number of days from 0 to 365, and 0
    exactly on the day of the birthday. *)
Theorem days_to_birthday_range (env : Env) (r : record) (b : date) :
  birthday r = Some (mkBirthday b) ->
  valid (today env) = true ->
  valid b = true ->
  leap_day b = false ->
  (year (today env) < 9999)%Z ->
  exists n,
    record_days_to_birthday env r = Ok (Some n)
    /\ (0 <= n <= 365)%Z
    /\ (n = 0%Z <->
        month b = month (today env) /\ day b = day (today env)).
Proof.
  intros Hb Ht Hv Hl Hy. unfold record_days_to_birthday. rewrite Hb.
  cbn [Birthday_value].
  pose proof (valid_ymd_inv _ _ _ Ht) as (Hty & _).
  destruct (next_birthday_days (today env) b Ht) as (next & -> & Hr & H0).
  - apply ordinary_day_every_year; assumption.
  - apply ordinary_day_every_year; try assumption. lia.
  - eauto.
Qed.

Lemma days_to_birthday_range_witness :
  exists n,
    record_days_to_birthday
      (mkEnv (mkdate 2024 1 2) false)
      (mkRecord (mkName (u "John")) [] (Some (mkBirthday (mkdate 1990 1 1))))
    = Ok (Some n)
    /\ (0 <= n <= 365)%Z.
Proof.
  destruct (days_to_birthday_range
              (mkEnv (mkdate 2024 1 2) false)
              (mkRecord (mkName (u "John")) []
                        (Some (mkBirthday (mkdate 1990 1 1))))
              (mkdate 1990 1 1))
    as (n & H & Hr & _); try reflexivity.
  exists n. auto.
Defined.

(** X16.  When no birthday of the book is on the 29th of February (and
    the current year is not the last one), [get_upcoming_birthdays]
    returns; its result lists, in the order of the book, the names of
    the contacts whose next birthday is at most [days] days away with
    that number of days, which is never negative. *)
Theorem upcoming_birthdays_without_leap_days
        (env : Env) (days : Z) (book : AddressBook) :
  valid (today env) = true ->
  (year (today env) < 9999)%Z ->
  (forall r b, In r (dict_values book) -> birthday r = Some b ->
               valid (Birthday_value b) = true
               /\ leap_day (Birthday_value b) = false) ->
  get_upcoming_birthdays env days book
  = Ok (flat_map (spec_upcoming_entry (today env) days) (dict_values book))
  /\ Forall (fun nd => 0 <= snd nd <= days)%Z
            (flat_map (spec_upcoming_entry (today env) days)
                      (dict_values book)).
Proof.
  intros Ht Hy Hb.
  pose proof (valid_ymd_inv _ _ _ Ht) as (Hty & _).
  assert (forall r b, In r (dict_values book) -> birthday r = Some b ->
            exists next,
              next_birthday (today env) (Birthday_value b) = Ok next
              /\ (0 <= sub_days next (today env) <= 365)%Z) as Hnext.
  { intros r b Hin Hbd. destruct (Hb r b Hin Hbd) as [Hv Hl].
    destruct (next_birthday_days (today env) (Birthday_value b) Ht)
      as (next & Hn & Hr & _).
    - apply ordinary_day_every_year; assumption.
    - apply ordinary_day_every_year; try assumption. lia.
    - eauto. }
  split.
  - apply get_upcoming_birthdays_ok. intros r b Hin Hbd.
    destruct (Hnext r b Hin Hbd) as (next & -> & _). reflexivity.
  - apply Forall_forall. intros [nm delta] Hin.
    apply in_flat_map in Hin as (r & Hr & Hin).
    unfold spec_upcoming_entry in Hin.
    destruct (birthday r) as [b|] eqn:Hbd; [|destruct Hin].
    destruct (Hnext r b Hr Hbd) as (next & Hn & Hrange).
    rewrite Hn in Hin.
    destruct (sub_days next (today env) <=? days)%Z eqn:E; [|destruct Hin].
    destruct Hin as [Hin|[]]. inversion Hin; subst. cbn [snd].
    apply Z.leb_le in E. lia.
Qed.

Lemma upcoming_birthdays_without_leap_days_witness :
  let env := mkEnv (mkdate 2024 1 1) false in
  let book :=
      [(u "ann", mkRecord (mkName (u "Ann")) []
                          (Some (mkBirthday (mkdate 1990 1 8))));
       (u "bob", record_init (u "Bob"));
       (u "eve", mkRecord (mkName (u "Eve")) []
                          (Some (mkBirthday (mkdate 1991 1 9))))] in
  get_upcoming_birthdays env 7 book = Ok [(u "Ann", 7%Z)].
Proof.
  cbv zeta.
  rewrite (proj1 (upcoming_birthdays_without_leap_days
             (mkEnv (mkdate 2024 1 1) false) 7
             [(u "ann", mkRecord (mkName (u "Ann")) []
                                 (Some (mkBirthday (mkdate 1990 1 8))));
              (u "bob", record_init (u "Bob"));
              (u "eve", mkRecord (mkName (u "Eve")) []
                                 (Some (mkBirthday (mkdate 1991 1 9))))]
             ltac:(reflexivity) ltac:(reflexivity)
             ltac:(intros r b [<-|[<-|[<-|[]]]] H; inversion H;
                   split; reflexivity))).
  vm_compute. reflexivity.
Defined.

(** ** The loop *)

Lemma too_few_arguments_witness :
  phone [] [] = (Ok (u "not enough values to unpack (expected at least 1, got 0)"), [])
  /\ add_birthday (mkEnv (mkdate 2024 1 1) false) [u "John"] []
     = (Ok (u "not enough values to unpack (expected at least 2, got 1)"), []).
Proof.
  destruct (too_few_arguments (mkEnv (mkdate 2024 1 1) false) [] [])
    as (_ & _ & H1 & _).
  destruct (too_few_arguments (mkEnv (mkdate 2024 1 1) false) [] [u "John"])
    as (_ & _ & _ & H2 & _).
  split.
  - rewrite H1; [vm_compute; reflexivity|cbn; lia].
  - rewrite H2; [vm_compute; reflexivity|cbn; lia].
Defined.

(** X19.  The loop reads a session piece by piece: the lines [b] after
    the lines [a] are handled from the book that [a] leaves, and their
    output follows that of [a]; once [a] has ended the process, by
    [exit], [close] or a crash, no later line is read. *)
Theorem main_loop_app (env : Env) (book : AddressBook) (a b : list pystr) :
  main_loop env book (a ++ b)
  = match snd (main_loop env book a) with
    | Running _ book' =>
      (fst (main_loop env book a) ++ fst (main_loop env book' b),
       snd (main_loop env book' b))
    | _ => main_loop env book a
    end.
Proof.
  revert book. induction a as [|line rest IH]; intros book.
  - cbn. destruct (main_loop env book b). reflexivity.
  - cbn [app main_loop].
    destruct (main_step env book line) as [printed book'| |];
      try reflexivity.
    rewrite IH.
    destruct (main_loop env book' rest) as [more final].
    cbn [fst snd]. destruct final; [|reflexivity|reflexivity].
    rewrite app_assoc. reflexivity.
Qed.

(** X21.  Commands are recognised whatever the case of their ASCII
    letters: two lines with the same arguments whose first tokens differ
    in that case only are handled alike. *)
Theorem command_case_insensitive
        (env : Env) (book : AddressBook) (line1 line2 tok1 tok2 : pystr)
        (args : list pystr) :
  split line1 = tok1 :: args ->
  split line2 = tok2 :: args ->
  ascii_case_variation tok1 tok2 ->
  main_step env book line1 = main_step env book line2.
Proof.
  intros H1 H2 Hv. unfold main_step.
  rewrite (parse_input_tokens line1 tok1 args H1).
  rewrite (parse_input_tokens line2 tok2 args H2).
  rewrite (ascii_case_variation_lower tok1 tok2 Hv). reflexivity.
Qed.

Lemma command_case_insensitive_witness :
  main_step (mkEnv (mkdate 2024 1 1) false) [] (u "Add John 1234567890")
  = main_step (mkEnv (mkdate 2024 1 1) false) [] (u "aDD John 1234567890").
Proof.
  apply (command_case_insensitive
           (mkEnv (mkdate 2024 1 1) false) []
           (u "Add John 1234567890") (u "aDD John 1234567890")
           (u "Add") (u "aDD") [u "John"; u "1234567890"]).
  - vm_compute. reflexivity.
  - vm_compute. reflexivity.
  - unfold ascii_case_variation.
    let s := eval vm_compute in (u "Add") in
    let t := eval vm_compute in (u "aDD") in
    change (Forall2 (fun a b => same_ascii_letter a b = true) s t).
    repeat (constructor; [vm_compute; reflexivity|]). constructor.
Defined.

(** ** Queries on unknown names and on contacts without data *)

(** X22.  For a name that is not in the book, [phone], [show-birthday],
    [add-birthday] and [change] all answer "Contact not found." and
    leave the book as it is. *)
Theorem unknown_contact_not_found
        (env : Env) (book : AddressBook) (nm a b : pystr) (rest : list pystr) :
  find nm book = None ->
  phone (nm :: rest) book = (Ok (u "Contact not found."), book)
  /\ show_birthday env (nm :: rest) book = (Ok (u "Contact not found."), book)
  /\ add_birthday env (nm :: a :: rest) book
     = (Ok (u "Contact not found."), book)
  /\ change_contact (nm :: a :: b :: rest) book
     = (Ok (u "Contact not found."), book).
Proof.
  intros Hf. repeat split; apply input_error_KeyError.
  - unfold raw_phone, bind, book_find. rewrite Hf. reflexivity.
  - unfold raw_show_birthday, bind, book_find. rewrite Hf. reflexivity.
  - unfold raw_add_birthday, bind, book_find. rewrite Hf. reflexivity.
  - unfold raw_change_contact, bind, book_find. rewrite Hf. reflexivity.
Qed.

Lemma unknown_contact_not_found_witness :
  phone [u "Bob"] [(u "john", record_init (u "John"))]
  = (Ok (u "Contact not found."), [(u "john", record_init (u "John"))]).
Proof.
  apply (unknown_contact_not_found
           (mkEnv (mkdate 2024 1 1) false)
           [(u "john", record_init (u "John"))] (u "Bob") [] [] []).
  vm_compute. reflexivity.
Defined.

(** X23.  For a contact of the book, [phone] and [show-birthday] answer
    with a placeholder instead of failing when the contact has no phone
    or no birthday - the state in which a rejected [add] leaves a new
    contact. *)
Theorem queries_on_contact_without_data
        (env : Env) (book : AddressBook) (nm : pystr) (rest : list pystr)
        (r : record) :
  find nm book = Some r ->
  (phones r = [] ->
   phone (nm :: rest) book = (Ok (u "Немає телефонів."), book))
  /\ (birthday r = None ->
      show_birthday env (nm :: rest) book
      = (Ok (u "Дата народження не встановлена."), book)).
Proof.
  intros Hf. split; intros He; apply input_error_Ok.
  - unfold raw_phone, bind, book_find. rewrite Hf, He. reflexivity.
  - unfold raw_show_birthday, bind, book_find. rewrite Hf, He. reflexivity.
Qed.

Lemma queries_on_contact_without_data_witness :
  let book := snd (add_contact [u "John"; u "12345"] []) in
  phone [u "john"] book = (Ok (u "Немає телефонів."), book)
  /\ show_birthday (mkEnv (mkdate 2024 1 1) false) [u "john"] book
     = (Ok (u "Дата народження не встановлена."), book).
Proof.
  cbv zeta.
  destruct (queries_on_contact_without_data
              (mkEnv (mkdate 2024 1 1) false)
              (snd (add_contact [u "John"; u "12345"] []))
              (u "john") [] (record_init (u "John")))
    as [H1 H2]; [vm_compute; reflexivity|].
  split; [apply H1|apply H2]; reflexivity.
Defined.

(** ** What leaves the decorated handlers *)


(** ** Adding a contact with an invalid phone, from the command line *)

Lemma main_step_add (env : Env) (book : AddressBook) (line : pystr)
      (args : list pystr) :
  parse_input line = (u "add", args) ->
  main_step env book line = print_result (add_contact args book).
Proof.
  intros H. unfold main_step. rewrite H.
  replace (str_eqb (u "add") (u "exit")) with false
    by (vm_compute; reflexivity).
  replace (str_eqb (u "add") (u "close")) with false
    by (vm_compute; reflexivity).
  replace (str_eqb (u "add") (u "hello")) with false
    by (vm_compute; reflexivity).
  rewrite str_eqb_refl. reflexivity.
Qed.

Lemma raw_add_contact_rejected_phone
      (book : AddressBook) (name phone : pystr) (rest : list pystr) :
  find name book = None ->
  is_ok (Phone_init phone) = false ->
  snd (raw_add_contact (name :: phone :: rest) book)
  = add_record (record_init name) book
  /\ (truthy phone = true ->
      raw_add_contact (name :: phone :: rest) book
      = (Raise (ValueError (u "Номер телефону має складатися з 10 цифр.")),
         add_record (record_init name) book)).
Proof.
  intros Hnone Hbad.
  unfold raw_add_contact, bind, book_find, book_add_record, ret, mutate,
    returning_none, record_add_phone.
  rewrite Hnone. cbn [fst snd]. rewrite (Phone_init_not_ok _ Hbad).
  destruct (truthy phone); split; try reflexivity; discriminate.
Qed.

(** C10.  For a name that [find] does not know and a phone string that
    [Phone] rejects, [add_contact] leaves the book changed: it holds a new
    record for the name, without phones.  The record is inserted before
    the phone is checked, and on every [add] line that carries this name
    and phone the handler answers with the validation error, which is
    what the loop prints. *)
Theorem C10_add_contact_not_atomic
        (env : Env) (book : AddressBook) (name phone : pystr)
        (rest : list pystr) :
  find name book = None ->
  is_ok (Phone_init phone) = false ->
  snd (add_contact (name :: phone :: rest) book)
  = add_record (record_init name) book
  /\ find name (add_record (record_init name) book)
     = Some (record_init name)
  /\ phones (record_init name) = []
  /\ add_record (record_init name) book <> book
  /\ (forall line command,
         split line = command :: name :: phone :: rest ->
         lower command = u "add" ->
         add_contact (name :: phone :: rest) book
         = (Ok (u "Номер телефону має складатися з 10 цифр."),
            add_record (record_init name) book)
         /\ main_step env book line
            = Running [u "Номер телефону має складатися з 10 цифр."]
                      (add_record (record_init name) book)).
Proof.
  intros Hnone Hbad.
  destruct (raw_add_contact_rejected_phone book name phone rest Hnone Hbad)
    as [Hbook Hraise].
  split; [|split; [|split; [|split]]].
  - unfold add_contact. rewrite input_error_book. exact Hbook.
  - apply find_add_record. reflexivity.
  - reflexivity.
  - apply find_none_changes with (v := name); [reflexivity|assumption].
  - intros line command Hs Hc.
    assert (truthy phone = true) as Ht.
    { pose proof (split_from_tokens line [] eq_refl) as Htok.
      fold (split line) in Htok. rewrite Hs in Htok.
      inversion Htok as [|? ? _ H1]; subst.
      inversion H1 as [|? ? _ H2]; subst.
      inversion H2 as [|? ? H3 _]; subst.
      unfold token in H3. apply andb_prop in H3 as [H3 _]. exact H3. }
    assert (add_contact (name :: phone :: rest) book
            = (Ok (u "Номер телефону має складатися з 10 цифр."),
               add_record (record_init name) book)) as Hadd.
    { apply input_error_ValueError; [|vm_compute; reflexivity].
      apply Hraise, Ht. }
    split; [exact Hadd|].
    rewrite (main_step_add env book line (name :: phone :: rest)).
    + rewrite Hadd. reflexivity.
    + rewrite (parse_input_tokens line command (name :: phone :: rest) Hs).
      rewrite Hc. reflexivity.
Qed.

Lemma C10_add_contact_not_atomic_witness :
  let env := mkEnv (mkdate 2024 1 1) false in
  snd (add_contact [u "John"; u "12345"] [])
  = add_record (record_init (u "John")) []
  /\ main_step env [] (u "add John 12345")
     = Running [u "Номер телефону має складатися з 10 цифр."]
               (add_record (record_init (u "John")) []).
Proof.
  cbv zeta.
  destruct (C10_add_contact_not_atomic
              (mkEnv (mkdate 2024 1 1) false) [] (u "John") (u "12345") [])
    as (H1 & _ & _ & _ & H2);
    [vm_compute; reflexivity|vm_compute; reflexivity|].
  split; [exact H1|].
  apply (H2 (u "add John 12345") (u "add")); vm_compute; reflexivity.
Defined.
